(** * AI Marketplace API: listings and orders over a document store

    A shallow embedding of [main.py] and [schemas.py].  Python dictionaries
    are finite maps from field names to values, the database handle [db] is
    a finite map from collection names to lists of documents, and a handler
    is a function from the state of the store to an outcome and the next
    state.  Every call that reaches the store is recorded in a trace, so
    that "no store access" is a statement about the trace. *)

From Stdlib Require Import ZArith Ascii String List Floats.SpecFloat.
From stdpp Require Import gmap strings list fin_maps option.

Local Open Scope string_scope.
Local Set Warnings "-register-all".

(** ** Identifiers of the store: [bson.objectid.ObjectId] *)

Module ObjectId.

(** One hexadecimal digit, that is half a byte. *)
Inductive hex :=
| H0 | H1 | H2 | H3 | H4 | H5 | H6 | H7
| H8 | H9 | Ha | Hb | Hc | Hd | He | Hf.

(** The store's native identifier type, [bson.objectid.ObjectId] of the
    driver.  An identifier holds 12 bytes; they are kept here as their 24
    half-bytes, most significant first. *)
Definition t := list hex.

Definition wf (o : t) : Prop := length o = 24%nat.

Definition hex_eqb (a b : hex) : bool :=
  match a, b with
  | H0, H0 | H1, H1 | H2, H2 | H3, H3 | H4, H4 | H5, H5 | H6, H6 | H7, H7
  | H8, H8 | H9, H9 | Ha, Ha | Hb, Hb | Hc, Hc | Hd, Hd | He, He | Hf, Hf => true
  | _, _ => false
  end.

Fixpoint eqb (a b : t) : bool :=
  match a, b with
  | [], [] => true
  | x :: a', y :: b' => hex_eqb x y && eqb a' b'
  | _, _ => false
  end.

(** [str(oid)]: lower-case hexadecimal text. *)
Definition hex_char (h : hex) : ascii :=
  match h with
  | H0 => "0" | H1 => "1" | H2 => "2" | H3 => "3"
  | H4 => "4" | H5 => "5" | H6 => "6" | H7 => "7"
  | H8 => "8" | H9 => "9" | Ha => "a" | Hb => "b"
  | Hc => "c" | Hd => "d" | He => "e" | Hf => "f"
  end%char.

Definition str (o : t) : string := string_of_list_ascii (map hex_char o).

(** Digits are read in either case. *)
Definition char_hex (c : ascii) : option hex :=
  match c with
  | "0" => Some H0 | "1" => Some H1 | "2" => Some H2 | "3" => Some H3
  | "4" => Some H4 | "5" => Some H5 | "6" => Some H6 | "7" => Some H7
  | "8" => Some H8 | "9" => Some H9
  | "a" | "A" => Some Ha | "b" | "B" => Some Hb | "c" | "C" => Some Hc
  | "d" | "D" => Some Hd | "e" | "E" => Some He | "f" | "F" => Some Hf
  | _ => None
  end%char.

(** ASCII white space: space, tab, line feed, vertical tab, form feed and
    carriage return. *)
Definition is_space (c : ascii) : bool :=
  match c with
  | " " | "009" | "010" | "011" | "012" | "013" => true
  | _ => false
  end%char.

(** [bytes.fromhex]: two digits for each byte; white space between bytes
    is skipped. *)
Fixpoint fromhex (s : list ascii) : option t :=
  match s with
  | [] => Some []
  | c :: r =>
      if is_space c then fromhex r
      else
        match r with
        | [] => None
        | c' :: r' =>
            match char_hex c, char_hex c', fromhex r' with
            | Some h, Some h', Some o => Some (h :: h' :: o)
            | _, _, _ => None
            end
        end
  end.

(** [ObjectId(s)] on a text argument: the text must have 24 characters and
    be read by [bytes.fromhex]; [None] where the constructor raises
    [InvalidId]. *)
Definition parse (s : string) : option t :=
  if (String.length s =? 24)%nat
  then fromhex (list_ascii_of_string s)
  else None.

End ObjectId.

(** ** Values and documents *)

(** The Python values that occur as fields of documents and of dumped
    payloads.  [VUrl] is a [Url] object of pydantic, as a validated
    [HttpUrl] field holds it; the others are values the store can hold. *)
Inductive value :=
| VNone
| VStr (s : string)
| VFloat (x : spec_float)
| VList (l : list value)
| VOid (o : ObjectId.t)
| VUrl (u : string).

(** A document, or any other Python [dict] with text keys. *)
Abbreviation dict := (gmap string value).

Definition float_eqb (x y : spec_float) : bool :=
  match x, y with
  | S754_zero a, S754_zero b => Bool.eqb a b
  | S754_infinity a, S754_infinity b => Bool.eqb a b
  | S754_nan, S754_nan => true
  | S754_finite a m e, S754_finite b n f =>
      Bool.eqb a b && Pos.eqb m n && Z.eqb e f
  | _, _ => false
  end.

(** Equality of two field values as the store compares them in a query;
    the handlers only ever ask for a text or for an identifier. *)
Fixpoint value_eqb (a b : value) {struct a} : bool :=
  match a, b with
  | VNone, VNone => true
  | VStr s, VStr s' => String.eqb s s'
  | VFloat x, VFloat y => float_eqb x y
  | VOid o, VOid o' => ObjectId.eqb o o'
  | VUrl u, VUrl u' => String.eqb u u'
  | VList l, VList l' =>
      (fix go (l l' : list value) : bool :=
         match l, l' with
         | [], [] => true
         | x :: r, y :: r' => value_eqb x y && go r r'
         | _, _ => false
         end) l l'
  | _, _ => false
  end.

(** What the driver can encode for the store: not a [Url] object. *)
Fixpoint encodable (v : value) : bool :=
  match v with
  | VUrl _ => false
  | VList l => forallb encodable l
  | _ => true
  end.

Definition doc_encodable (d : dict) : bool :=
  bool_decide (map_Forall (λ (_ : string) v, encodable v = true) d).

(** [not d] for a dictionary. *)
Definition dict_falsy (d : dict) : bool :=
  match map_to_list d with [] => true | _ => false end.

(** [not doc] for what [find_one] returns: [None] or a dictionary. *)
Definition falsy (doc : option dict) : bool :=
  match doc with None => true | Some d => dict_falsy d end.

(** ** A small regular-expression engine for the examples

    The store hands the pattern of a [$regex] to its regular-expression
    engine, which is not part of the repository and is a parameter of the
    development.  The engine below stands in for it in the examples.  It
    reads a pattern made of ordinary ASCII characters and of dots, a dot
    standing for any character but a line feed, and on ASCII texts it
    finds what the store's engine finds; it takes any other pattern for no
    regular expression.  The examples call it on such patterns and texts
    only; no theorem depends on it. *)

Module Regex.

Inductive atom :=
| Lit (c : ascii)
| AnyChar.

(** The characters, apart from the dot, that the engine does not read as
    themselves. *)
Definition special (c : ascii) : bool :=
  existsb (Ascii.eqb c) (list_ascii_of_string "\^$*+?()[]{}|").

(** An ordinary character: ASCII, not the dot and not special. *)
Definition ordinary (c : ascii) : bool :=
  negb (Ascii.eqb c ".") && negb (special c) && (nat_of_ascii c <? 128)%nat.

Definition atom_of (c : ascii) : option atom :=
  if Ascii.eqb c "." then Some AnyChar
  else if ordinary c then Some (Lit c)
  else None.

Definition compile (pattern : string) : option (list atom) :=
  mapM atom_of (list_ascii_of_string pattern).

(** Lower case of an ASCII letter; other characters are kept. *)
Definition lower (c : ascii) : ascii :=
  let n := nat_of_ascii c in
  if ((65 <=? n) && (n <=? 90))%nat then ascii_of_nat (n + 32) else c.

Definition atom_matches (ignore_case : bool) (a : atom) (c : ascii) : bool :=
  match a with
  | Lit x => if ignore_case then Ascii.eqb (lower x) (lower c) else Ascii.eqb x c
  | AnyChar => negb (Ascii.eqb c "010")
  end.

Fixpoint matches_here (ignore_case : bool) (p : list atom) (s : list ascii) : bool :=
  match p, s with
  | [], _ => true
  | a :: p', c :: s' => atom_matches ignore_case a c && matches_here ignore_case p' s'
  | _ :: _, [] => false
  end.

(** A pattern is searched for, not anchored: it may match anywhere. *)
Fixpoint search_from (ignore_case : bool) (p : list atom) (s : list ascii) : bool :=
  matches_here ignore_case p s
  || match s with
     | [] => false
     | _ :: s' => search_from ignore_case p s'
     end.

Definition search (pattern : string) (ignore_case : bool) (subject : string) : bool :=
  match compile pattern with
  | Some p => search_from ignore_case p (list_ascii_of_string subject)
  | None => false
  end.

Definition engine (pattern : string) (ignore_case : bool) : option (string → bool) :=
  match compile pattern with
  | Some _ => Some (search pattern ignore_case)
  | None => None
  end.

End Regex.




(** ** Queries of the store *)

(** What a query says about one field. *)
Inductive cond :=
| CEq (v : value)                                 (* {field: v} *)
| CIn (vs : list value)                           (* {field: {"$in": vs}} *)
| CRegex (pattern : string) (ignore_case : bool). (* {field: {"$regex": p, "$options": "i"}} *)

(** One item of a filter dictionary: a condition on the field named by the
    key, or, under the key ["$or"], a list of alternatives. *)
Inductive entry :=
| Cond (c : cond)
| OrOf (alts : list (gmap string cond)).

Abbreviation filter_dict := (gmap string entry).

(** ** Outcomes, the state of the store, and handlers *)

Inductive exn :=
| HTTPException (status_code : Z) (detail : string) (* raised by a handler *)
| RequestValidationError  (* the request does not fit the declared schema: 422 *)
| ValidationError         (* a response model cannot be built: uncaught *)
| TypeError               (* unpacking [None] as keyword arguments: uncaught *)
| InvalidId               (* [ObjectId(s)] outside a [try]: uncaught *)
| DuplicateKeyError       (* the store refuses a second document with one [_id] *)
| OperationFailure        (* the store refuses a query whose pattern is no regular expression *)
| InvalidDocument         (* the driver cannot encode a value of the document *)
| NotModelled.            (* not an exception: the call leaves the modelled fragment *)

Inductive outcome (A : Type) :=
| Return (a : A)
| Raise (e : exn).
Arguments Return {A} a.
Arguments Raise {A} e.

#[global] Instance outcome_ret : MRet outcome := λ A a, Return a.
#[global] Instance outcome_bind : MBind outcome := λ A B f m,
  match m with
  | Return a => f a
  | Raise e => Raise e
  end.

(** The list comprehension [[f(x) for x in l]] where [f] may raise. *)
Fixpoint comprehension {A B : Type} (f : A → outcome B) (l : list A) : outcome (list B) :=
  match l with
  | [] => Return []
  | x :: r =>
      match f x with
      | Return y =>
          match comprehension f r with
          | Return ys => Return (y :: ys)
          | Raise e => Raise e
          end
      | Raise e => Raise e
      end
  end.

(** One call that reaches the store. *)
Inductive access :=
| Read (collection : string)
| Write (collection : string).

(** The database handle [db]: its collections, each a list of documents in
    insertion order, and the calls made on it so far. *)
Record world := World {
  collections : gmap string (list dict);
  trace : list access
}.

(** [db[name]]; a collection that was never written to is empty. *)
Definition coll (w : world) (name : string) : list dict :=
  default [] (collections w !! name).

Definition logged (a : access) (w : world) : world :=
  {| collections := collections w; trace := trace w ++ [a] |}.

(** A handler: the state of the store is threaded through; what was written
    before an exception stays written. *)
Definition M (A : Type) : Type := world → outcome A * world.

#[global] Instance M_ret : MRet M := λ A a w, (Return a, w).
#[global] Instance M_bind : MBind M := λ A B f m w,
  match m w with
  | (Return a, w') => f a w'
  | (Raise e, w') => (Raise e, w')
  end.

Definition raise {A : Type} (e : exn) : M A := λ w, (Raise e, w).

Definition lift {A : Type} (o : outcome A) : M A := λ w, (o, w).

(** ** schemas.py

    A record of type [t] is a validated payload.  A price is a double; an
    address ([EmailStr]) is a text; a URL ([HttpUrl]) is a [Url] object,
    named here by its text. *)

Module Listing.
Record t := {
  title : string;
  type : string;
  description : string;
  price : spec_float;
  tags : list string;
  seller_name : string;
  seller_email : string;
  demo_url : option string;
  thumbnail_url : option string
}.
End Listing.

Module Order.
Record t := {
  listing_id : string;
  buyer_name : string;
  buyer_email : string;
  status : string
}.
End Order.

(** A request body after decoding: every field is absent or holds a value
    of its declared Python type. *)
Module ListingBody.
Record t := {
  title : option string;
  type : option string;
  description : option string;
  price : option spec_float;
  tags : option (list string);
  seller_name : option string;
  seller_email : option string;
  demo_url : option string;
  thumbnail_url : option string
}.
End ListingBody.

Module OrderBody.
Record t := {
  listing_id : option string;
  buyer_name : option string;
  buyer_email : option string;
  status : option string
}.
End OrderBody.

(** [Field(...)]: a required field. *)
Definition required {A : Type} (field : option A) : outcome A :=
  match field with
  | Some a => Return a
  | None => Raise RequestValidationError
  end.

(** [Field(..., ge=bound)] on a float: [value >= bound] must hold. *)
Definition ge (bound : spec_float) (x : spec_float) : outcome spec_float :=
  if SFleb bound x then Return x else Raise RequestValidationError.

Definition zero : spec_float := S754_zero false.

(** An optional text as the store holds it. *)
Definition opt_value (o : option string) : value :=
  match o with
  | Some s => VStr s
  | None => VNone
  end.

(** An optional [HttpUrl] field as [model_dump] gives it: the [Url] object
    itself, or [None]. *)
Definition url_value (o : option string) : value :=
  match o with
  | Some u => VUrl u
  | None => VNone
  end.

(** [payload.model_dump()]. *)
Definition Listing_model_dump (p : Listing.t) : dict :=
  list_to_map
    [ ("title", VStr (Listing.title p));
      ("type", VStr (Listing.type p));
      ("description", VStr (Listing.description p));
      ("price", VFloat (Listing.price p));
      ("tags", VList (map VStr (Listing.tags p)));
      ("seller_name", VStr (Listing.seller_name p));
      ("seller_email", VStr (Listing.seller_email p));
      ("demo_url", url_value (Listing.demo_url p));
      ("thumbnail_url", url_value (Listing.thumbnail_url p)) ].

Definition Order_model_dump (p : Order.t) : dict :=
  list_to_map
    [ ("listing_id", VStr (Order.listing_id p));
      ("buyer_name", VStr (Order.buyer_name p));
      ("buyer_email", VStr (Order.buyer_email p));
      ("status", VStr (Order.status p)) ].

(** ** Response models of main.py *)

Module ListingOut.
Record t := {
  id : string;
  title : string;
  type : string;
  description : string;
  price : spec_float;
  tags : list string;
  seller_name : string;
  seller_email : string;
  demo_url : option string;
  thumbnail_url : option string
}.
End ListingOut.

Module OrderOut.
Record t := {
  id : string;
  listing_id : string;
  buyer_name : string;
  buyer_email : string;
  status : string
}.
End OrderOut.

(** A keyword argument for a field annotated [str]. *)
Definition arg_str (d : dict) (k : string) : outcome string :=
  match d !! k with
  | Some (VStr s) => Return s
  | _ => Raise ValidationError
  end.

(** A keyword argument for a field annotated [float].  Text in this place
    would be read as a number where it spells one, which is not modelled. *)
Definition arg_float (d : dict) (k : string) : outcome spec_float :=
  match d !! k with
  | Some (VFloat x) => Return x
  | Some (VStr _) => Raise NotModelled
  | _ => Raise ValidationError
  end.

Definition as_str (v : value) : outcome string :=
  match v with
  | VStr s => Return s
  | _ => Raise ValidationError
  end.

(** A keyword argument for [List[str] = []]. *)
Definition arg_str_list (d : dict) (k : string) : outcome (list string) :=
  match d !! k with
  | None => Return []
  | Some (VList l) => comprehension as_str l
  | Some _ => Raise ValidationError
  end.

(** A keyword argument for [Optional[str] = None]. *)
Definition arg_opt_str (d : dict) (k : string) : outcome (option string) :=
  match d !! k with
  | None | Some VNone => Return None
  | Some (VStr s) => Return (Some s)
  | Some _ => Raise ValidationError
  end.

(** [ListingOut] built from the items of [d] as keyword arguments; keys
    that are not fields are ignored. *)
Definition ListingOut_init (d : option dict) : outcome ListingOut.t :=
  match d with
  | None => Raise TypeError
  | Some d =>
      id ← arg_str d "id";
      title ← arg_str d "title";
      type ← arg_str d "type";
      description ← arg_str d "description";
      price ← arg_float d "price";
      tags ← arg_str_list d "tags";
      seller_name ← arg_str d "seller_name";
      seller_email ← arg_str d "seller_email";
      demo_url ← arg_opt_str d "demo_url";
      thumbnail_url ← arg_opt_str d "thumbnail_url";
      mret {| ListingOut.id := id; ListingOut.title := title;
              ListingOut.type := type; ListingOut.description := description;
              ListingOut.price := price; ListingOut.tags := tags;
              ListingOut.seller_name := seller_name;
              ListingOut.seller_email := seller_email;
              ListingOut.demo_url := demo_url;
              ListingOut.thumbnail_url := thumbnail_url |}
  end.

(** [OrderOut] built from the items of [d] as keyword arguments. *)
Definition OrderOut_init (d : option dict) : outcome OrderOut.t :=
  match d with
  | None => Raise TypeError
  | Some d =>
      id ← arg_str d "id";
      listing_id ← arg_str d "listing_id";
      buyer_name ← arg_str d "buyer_name";
      buyer_email ← arg_str d "buyer_email";
      status ← arg_str d "status";
      mret {| OrderOut.id := id; OrderOut.listing_id := listing_id;
              OrderOut.buyer_name := buyer_name;
              OrderOut.buyer_email := buyer_email;
              OrderOut.status := status |}
  end.

(** [Query(default, ge=lo, le=hi)] on an integer parameter that the request
    gives ([Some n]) or omits. *)
Definition Query (default lo hi : Z) (given : option Z) : M Z :=
  match given with
  | None => mret default
  | Some n =>
      if ((lo <=? n) && (n <=? hi))%Z then mret n
      else raise RequestValidationError
  end.

(** [if s:] on an optional text parameter: the text when it is given and
    not empty. *)
Definition truthy (s : option string) : option string :=
  match s with
  | Some EmptyString | None => None
  | Some t => Some t
  end.

(** ** The diagnostic endpoint of main.py *)

(** A Python text character by character, each character by its code
    point, for the place where the code cuts a text after a number of
    characters; [utf8] gives the text that these characters make. *)
Definition utf8_char (c : N) : list ascii :=
  let byte (n : N) := ascii_of_N n in
  if (c <? 128)%N then [byte c]
  else if (c <? 2048)%N then
    [byte (192 + c / 64)%N; byte (128 + c mod 64)%N]
  else if (c <? 65536)%N then
    [byte (224 + c / 4096)%N; byte (128 + (c / 64) mod 64)%N;
     byte (128 + c mod 64)%N]
  else
    [byte (240 + (c / 262144) mod 8)%N; byte (128 + (c / 4096) mod 64)%N;
     byte (128 + (c / 64) mod 64)%N; byte (128 + c mod 64)%N].

Definition utf8 (cs : list N) : string :=
  string_of_list_ascii (concat (map utf8_char cs)).

(** The handle [db] as [test_database] uses it: its name, and what
    [list_collection_names] gives, the names or the text of the exception
    it raises, character by character. *)
Module Database.
Record t := {
  name : string;
  list_collection_names : list N + list string
}.
End Database.

(** The order in which the store hands out the documents that match a
    filter.  Nothing is known of it but that it is an order of these
    documents. *)
Record cursor_order := {
  arrange : filter_dict → list dict → list dict;
  arrange_perm : ∀ (f : filter_dict) (l : list dict), Permutation (arrange f l) l
}.

Section Marketplace.

(** Python's [str] on the values that are neither text nor identifiers
    (floats, lists); the handlers never look into its result. *)
Variable str_other : value → string.

(** [EmailStr] and [HttpUrl] of pydantic: the accepted text in its
    normalised form, or [None] for a malformed one. *)
Variable email_str : string → option string.
Variable http_url : string → option string.

(** The regular-expression engine of the store: [regex p i] is [None] when
    [p] is no regular expression; otherwise it tells of a text whether [p]
    matches somewhere in it, letter case set aside when [i] holds. *)
Variable regex : string → bool → option (string → bool).

(** The order in which the store hands out the matches of a query. *)
Variable order : cursor_order.

(** ** Queries of the store, continued *)

(** A value matches [v] when it equals [v] or is a list with an element
    equal to [v]; a missing field matches only [None]. *)
Definition eq_matches (v : value) (field : option value) : bool :=
  match field with
  | Some (VList l) => value_eqb (VList l) v || existsb (λ y, value_eqb y v) l
  | Some x => value_eqb x v
  | None => value_eqb VNone v
  end.

(** A text matches a pattern when the engine finds the pattern in it; a
    list matches when one of its texts does. *)
Definition regex_matches (pattern : string) (ignore_case : bool)
    (field : option value) : bool :=
  match regex pattern ignore_case with
  | Some found =>
      match field with
      | Some (VStr s) => found s
      | Some (VList l) =>
          existsb (λ y, match y with
                        | VStr s => found s
                        | _ => false
                        end) l
      | _ => false
      end
  | None => false
  end.

Definition cond_matches (c : cond) (field : option value) : bool :=
  match c with
  | CEq v => eq_matches v field
  | CIn vs => existsb (λ v, eq_matches v field) vs
  | CRegex p ic => regex_matches p ic field
  end.

(** All the conditions of one dictionary hold of the document. *)
Definition conds_match (cs : gmap string cond) (d : dict) : bool :=
  bool_decide (map_Forall (λ k c, cond_matches c (d !! k) = true) cs).

Definition entry_matches (k : string) (e : entry) (d : dict) : bool :=
  match e with
  | Cond c => cond_matches c (d !! k)
  | OrOf alts => existsb (λ cs, conds_match cs d) alts
  end.

(** The items of a filter are combined by conjunction. *)
Definition doc_matches (f : filter_dict) (d : dict) : bool :=
  bool_decide (map_Forall (λ k e, entry_matches k e d = true) f).

(** Every pattern of the filter is a regular expression. *)
Definition cond_valid (c : cond) : bool :=
  match c with
  | CRegex p ic => match regex p ic with Some _ => true | None => false end
  | _ => true
  end.

Definition entry_valid (e : entry) : bool :=
  match e with
  | Cond c => cond_valid c
  | OrOf alts =>
      forallb (λ cs, bool_decide (map_Forall (λ _ c, cond_valid c = true) cs)) alts
  end.

Definition filter_valid (f : filter_dict) : bool :=
  bool_decide (map_Forall (λ _ e, entry_valid e = true) f).

(** ** Calls on the store *)

(** [db[name].find(f)], read to the end. *)
Definition find (name : string) (f : filter_dict) : M (list dict) := λ w,
  if filter_valid f
  then (Return (List.filter (doc_matches f) (coll w name)), logged (Read name) w)
  else (Raise OperationFailure, logged (Read name) w).

(** [db[name].find_one(f)]: the first match, or [None]. *)
Definition find_one (name : string) (f : filter_dict) : M (option dict) := λ w,
  if filter_valid f
  then (Return (head (List.filter (doc_matches f) (coll w name))), logged (Read name) w)
  else (Raise OperationFailure, logged (Read name) w).

Definition has_id (id : value) (d : dict) : bool :=
  match d !! "_id" with
  | Some v => value_eqb v id
  | None => false
  end.

(** The collection [name] with one more document at its end. *)
Definition appended (name : string) (doc : dict) (w : world) : world :=
  {| collections := <[name := (coll w name ++ [doc])%list]> (collections w);
     trace := trace w |}.

(** [db[name].insert_one(doc).inserted_id].  A document with a value that
    the driver cannot encode is refused before anything is sent to the
    store.  A document without [_id] gets [new_id], the identifier the
    driver generates for this call. *)
Definition insert_one (name : string) (doc : dict) (new_id : ObjectId.t) : M value := λ w,
  if negb (doc_encodable doc) then (Raise InvalidDocument, w)
  else
    let id := default (VOid new_id) (doc !! "_id") in
    if existsb (has_id id) (coll w name)
    then (Raise DuplicateKeyError, logged (Write name) w)
    else (Return id, appended name (<["_id" := id]> doc) (logged (Write name) w)).


Definition py_str (v : value) : string :=
  match v with
  | VStr s => s
  | VOid o => ObjectId.str o
  | VUrl u => u
  | VNone => "None"
  | _ => str_other v
  end.

(** [serialize_doc] of main.py. *)
Definition serialize_doc (doc : option dict) : option dict :=
  match doc with
  | None => None
  | Some doc =>
      if dict_falsy doc then Some doc
      else
        let d := doc in
        let d :=
          match d !! "_id" with
          | Some v => <["id" := VStr (py_str v)]> (delete "_id" d)
          | None => d
          end in
        let d :=
          match d !! "listing_id" with
          | Some (VOid o) => <["listing_id" := VStr (ObjectId.str o)]> d
          | _ => d
          end in
        Some d
  end.

(** Validation of a request body against [Listing] of schemas.py. *)
Definition checked (check : string → option string) (s : string) : outcome string :=
  match check s with
  | Some s' => Return s'
  | None => Raise RequestValidationError
  end.

Definition checked_opt (check : string → option string) (s : option string)
    : outcome (option string) :=
  match s with
  | None => Return None
  | Some u => u' ← checked check u; mret (Some u')
  end.

Definition Listing_validate (b : ListingBody.t) : outcome Listing.t :=
  title ← required (ListingBody.title b);
  type ← required (ListingBody.type b);
  description ← required (ListingBody.description b);
  price ← required (ListingBody.price b);
  price ← ge zero price;
  let tags := default [] (ListingBody.tags b) in
  seller_name ← required (ListingBody.seller_name b);
  seller_email ← required (ListingBody.seller_email b);
  seller_email ← checked email_str seller_email;
  demo_url ← checked_opt http_url (ListingBody.demo_url b);
  thumbnail_url ← checked_opt http_url (ListingBody.thumbnail_url b);
  mret {| Listing.title := title; Listing.type := type;
          Listing.description := description; Listing.price := price;
          Listing.tags := tags; Listing.seller_name := seller_name;
          Listing.seller_email := seller_email; Listing.demo_url := demo_url;
          Listing.thumbnail_url := thumbnail_url |}.

(** Validation of a request body against [Order] of schemas.py. *)
Definition Order_validate (b : OrderBody.t) : outcome Order.t :=
  listing_id ← required (OrderBody.listing_id b);
  buyer_name ← required (OrderBody.buyer_name b);
  buyer_email ← required (OrderBody.buyer_email b);
  buyer_email ← checked email_str buyer_email;
  let status := default "completed" (OrderBody.status b) in
  mret {| Order.listing_id := listing_id; Order.buyer_name := buyer_name;
          Order.buyer_email := buyer_email; Order.status := status |}.

(** Modelled from the spec: [create_document] of database.py, which is not
    among the sources: it inserts the record into the collection with one
    write and returns the newly generated identifier, as text. *)
Definition create_document (new_id : ObjectId.t) (collection_name : string)
    (data : dict) : M string :=
  inserted_id ← insert_one collection_name data new_id;
  mret (py_str inserted_id).

(** Modelled from the spec: [get_documents] of database.py, which is not
    among the sources: it returns up to [limit] records of the collection
    that match the filter, in the order of the store, which is not
    specified; an empty filter matches every record. *)
Definition get_documents (collection_name : string) (filter_dict : filter_dict)
    (limit : Z) : M (list dict) :=
  docs ← find collection_name filter_dict;
  mret (firstn (Z.to_nat limit) (arrange order filter_dict docs)).

(** [ObjectId(s)] where the handler does not catch its exception. *)
Definition ObjectId_of (s : string) : M ObjectId.t :=
  match ObjectId.parse s with
  | Some oid => mret oid
  | None => raise InvalidId
  end.

Definition by_id (oid : ObjectId.t) : filter_dict :=
  {["_id" := Cond (CEq (VOid oid))]}.

(** Some document of the collection is found under the identifier. *)
Definition stored (name : string) (oid : ObjectId.t) (w : world) : bool :=
  existsb (doc_matches (by_id oid)) (coll w name).

(** The response that shows a listing under an identifier. *)
Definition ListingOut_of (id : string) (p : Listing.t) : ListingOut.t :=
  {| ListingOut.id := id;
     ListingOut.title := Listing.title p;
     ListingOut.type := Listing.type p;
     ListingOut.description := Listing.description p;
     ListingOut.price := Listing.price p;
     ListingOut.tags := Listing.tags p;
     ListingOut.seller_name := Listing.seller_name p;
     ListingOut.seller_email := Listing.seller_email p;
     ListingOut.demo_url := Listing.demo_url p;
     ListingOut.thumbnail_url := Listing.thumbnail_url p |}.

(** [create_listing] of main.py; [new_id] is the identifier the store
    generates for the insert. *)
Definition create_listing (new_id : ObjectId.t) (payload : Listing.t) : M ListingOut.t :=
  inserted_id ← create_document new_id "listing" (Listing_model_dump payload);
  oid ← ObjectId_of inserted_id;
  doc ← find_one "listing" (by_id oid);
  lift (ListingOut_init (serialize_doc doc)).

(** [list_listings] of main.py. *)
Definition list_listings (q type tag : option string) (limit : option Z)
    : M (list ListingOut.t) :=
  limit ← Query 50 1 100 limit;
  let filter_dict : filter_dict := ∅ in
  let filter_dict :=
    match truthy type with
    | Some type => <["type" := Cond (CEq (VStr type))]> filter_dict
    | None => filter_dict
    end in
  let filter_dict :=
    match truthy tag with
    | Some tag => <["tags" := Cond (CIn [VStr tag])]> filter_dict
    | None => filter_dict
    end in
  let filter_dict :=
    match truthy q with
    | Some q =>
        let regex := CRegex q true in
        <["$or" := OrOf [ {["title" := regex]};
                          {["description" := regex]};
                          {["tags" := regex]} ]]> filter_dict
    | None => filter_dict
    end in
  docs ← get_documents "listing" filter_dict limit;
  lift (comprehension (λ d, ListingOut_init (serialize_doc (Some d))) docs).

(** [get_listing] of main.py. *)
Definition get_listing (listing_id : string) : M ListingOut.t :=
  match ObjectId.parse listing_id with
  | None => raise (HTTPException 400 "Invalid listing id")
  | Some oid =>
      doc ← find_one "listing" (by_id oid);
      if falsy doc then raise (HTTPException 404 "Listing not found")
      else lift (ListingOut_init (serialize_doc doc))
  end.

(** [create_order] of main.py. *)
Definition create_order (new_id : ObjectId.t) (payload : Order.t) : M OrderOut.t :=
  match ObjectId.parse (Order.listing_id payload) with
  | None => raise (HTTPException 400 "Invalid listing id")
  | Some oid =>
      listing ← find_one "listing" (by_id oid);
      if falsy listing then raise (HTTPException 404 "Listing not found")
      else
        let data := Order_model_dump payload in
        let data := <["listing_id" := VOid oid]> data in
        inserted_id ← create_document new_id "order" data;
        oid' ← ObjectId_of inserted_id;
        doc ← find_one "order" (by_id oid');
        lift (OrderOut_init (serialize_doc doc))
  end.

(** [list_orders] of main.py. *)
Definition list_orders (buyer_email : option string) (limit : option Z)
    : M (list OrderOut.t) :=
  limit ← Query 50 1 100 limit;
  let filter_dict : filter_dict := ∅ in
  let filter_dict :=
    match truthy buyer_email with
    | Some buyer_email => <["buyer_email" := Cond (CEq (VStr buyer_email))]> filter_dict
    | None => filter_dict
    end in
  docs ← get_documents "order" filter_dict limit;
  lift (comprehension (λ d, OrderOut_init (serialize_doc (Some d))) docs).

(** The routes that take a body: the framework validates the body against
    the schema of the parameter [payload] and calls the handler only with a
    validated record. *)
Definition POST_api_listings (new_id : ObjectId.t) (body : ListingBody.t) : M ListingOut.t :=
  payload ← lift (Listing_validate body);
  create_listing new_id payload.

Definition POST_api_orders (new_id : ObjectId.t) (body : OrderBody.t) : M OrderOut.t :=
  payload ← lift (Order_validate body);
  create_order new_id payload.

(** The price of a stored listing is a float that is not below zero. *)
Definition price_ok (d : dict) : Prop :=
  ∃ p : spec_float, d !! "price" = Some (VFloat p) ∧ SFleb zero p = true.



(** ** Sample data: one stored listing *)

Definition sample_id : ObjectId.t := (repeat ObjectId.H0 23 ++ [ObjectId.H1])%list.
Definition other_id : ObjectId.t := (repeat ObjectId.H0 23 ++ [ObjectId.H2])%list.

Definition sample_listing : Listing.t :=
  {| Listing.title := "Bot";
     Listing.type := "chatbot";
     Listing.description := "d";
     Listing.price := S754_finite false 19 (-1);
     Listing.tags := [];
     Listing.seller_name := "A";
     Listing.seller_email := "a@x.com";
     Listing.demo_url := None;
     Listing.thumbnail_url := None |}.

Definition tagged_listing : Listing.t :=
  {| Listing.title := "Flow";
     Listing.type := "workflow";
     Listing.description := "automation";
     Listing.price := zero;
     Listing.tags := ["ai"; "ops"];
     Listing.seller_name := "B";
     Listing.seller_email := "b@x.com";
     Listing.demo_url := None;
     Listing.thumbnail_url := None |}.


Definition sample_doc : dict := <["_id" := VOid sample_id]> (Listing_model_dump sample_listing).
Definition tagged_doc : dict := <["_id" := VOid other_id]> (Listing_model_dump tagged_listing).

(** The engine and the order of the examples: the small engine, and the
    order of insertion. *)
Definition insertion_order : cursor_order :=
  {| arrange := λ _ l, l; arrange_perm := λ _ l, Permutation_refl l |}.

(** In the examples [str] of a float or of a list is the empty text, and
    every address is taken as it is. *)
Definition no_text : value → string := λ _, "".
Definition any_text : string → option string := Some.

Definition empty_world : world := {| collections := ∅; trace := [] |}.

Definition sample_world : world :=
  {| collections := {["listing" := [sample_doc]]}; trace := [] |}.

Definition two_world : world :=
  {| collections := {["listing" := [sample_doc; tagged_doc]]}; trace := [] |}.

Definition sample_order : Order.t :=
  {| Order.listing_id := "000000000000000000000002";
     Order.buyer_name := "C";
     Order.buyer_email := "c@x.com";
     Order.status := "completed" |}.

Definition malformed_order : Order.t :=
  {| Order.listing_id := "not-an-id";
     Order.buyer_name := "C";
     Order.buyer_email := "c@x.com";
     Order.status := "completed" |}.

Definition negative_body : ListingBody.t :=
  {| ListingBody.title := Some "Bot";
     ListingBody.type := Some "chatbot";
     ListingBody.description := Some "d";
     ListingBody.price := Some (S754_finite true 1 0);
     ListingBody.tags := None;
     ListingBody.seller_name := Some "A";
     ListingBody.seller_email := Some "a@x.com";
     ListingBody.demo_url := None;
     ListingBody.thumbnail_url := None |}.

Definition sample_body : ListingBody.t :=
  {| ListingBody.title := Some "Bot";
     ListingBody.type := Some "chatbot";
     ListingBody.description := Some "d";
     ListingBody.price := Some (S754_finite false 19 (-1));
     ListingBody.tags := None;
     ListingBody.seller_name := Some "A";
     ListingBody.seller_email := Some "a@x.com";
     ListingBody.demo_url := None;
     ListingBody.thumbnail_url := None |}.

(** ** [test_database] *)

(** [test_database] of main.py.  [db] is [None] when no store is
    configured; [DATABASE_URL] is what [os.getenv] returns.  The response
    is filled in step by step, and an exception leaves the steps before it
    in place. *)
Definition test_database (db : option Database.t) (DATABASE_URL : option string) : dict :=
  let response : dict :=
    list_to_map
      [ ("backend", VStr "✅ Running");
        ("database", VStr "❌ Not Available");
        ("database_url", VNone);
        ("database_name", VNone);
        ("connection_status", VStr "Not Connected");
        ("collections", VList []) ] in
  match db with
  | None => response
  | Some db =>
      let response := <["database" := VStr "✅ Available"]> response in
      let response :=
        <["database_url" := VStr match truthy DATABASE_URL with
                                 | Some _ => "✅ Set"
                                 | None => "❌ Not Set"
                                 end]> response in
      let response := <["database_name" := VStr (Database.name db)]> response in
      match Database.list_collection_names db with
      | inr collections =>
          let response :=
            <["collections" := VList (map VStr (firstn 10 collections))]> response in
          let response := <["connection_status" := VStr "Connected"]> response in
          <["database" := VStr "✅ Connected & Working"]> response
      | inl e =>
          <["database" := VStr ("❌ Error: " ++ utf8 (firstn 80 e))]> response
      end
  end.

(** ** Stores written through the handlers *)

(** The fields of a listing as the store holds them: the URLs, where there
    are any, as texts. *)
Definition listing_fields (p : Listing.t) : dict :=
  list_to_map
    [ ("title", VStr (Listing.title p));
      ("type", VStr (Listing.type p));
      ("description", VStr (Listing.description p));
      ("price", VFloat (Listing.price p));
      ("tags", VList (map VStr (Listing.tags p)));
      ("seller_name", VStr (Listing.seller_name p));
      ("seller_email", VStr (Listing.seller_email p));
      ("demo_url", opt_value (Listing.demo_url p));
      ("thumbnail_url", opt_value (Listing.thumbnail_url p)) ].

(** A stored listing: for a payload without URLs, the document that
    [create_listing] stores. *)
Definition listing_doc (e : ObjectId.t * Listing.t) : dict :=
  <["_id" := VOid e.1]> (listing_fields e.2).

(** The response that shows it. *)
Definition listing_out (e : ObjectId.t * Listing.t) : ListingOut.t :=
  ListingOut_of (ObjectId.str e.1) e.2.

(** The document that [create_order] stores for a payload whose
    [listing_id] reads as [listing]. *)
Definition order_doc (e : ObjectId.t * ObjectId.t * Order.t) : dict :=
  <["_id" := VOid e.1.1]>
    (<["listing_id" := VOid e.1.2]> (Order_model_dump e.2)).

(** The response that shows it. *)
Definition order_out (e : ObjectId.t * ObjectId.t * Order.t) : OrderOut.t :=
  {| OrderOut.id := ObjectId.str e.1.1;
     OrderOut.listing_id := ObjectId.str e.1.2;
     OrderOut.buyer_name := Order.buyer_name e.2;
     OrderOut.buyer_email := Order.buyer_email e.2;
     OrderOut.status := Order.status e.2 |}.

(** What the parameters of [list_listings] ask of a listing. *)
Definition selected (q type tag : option string) (p : Listing.t) : bool :=
  match truthy type with
  | Some t => String.eqb (Listing.type p) t
  | None => true
  end
  && match truthy tag with
     | Some g => existsb (λ s, String.eqb s g) (Listing.tags p)
     | None => true
     end
  && match truthy q with
     | Some x =>
         match regex x true with
         | Some found =>
             found (Listing.title p)
             || found (Listing.description p)
             || existsb found (Listing.tags p)
         | None => false
         end
     | None => true
     end.

(** What the parameter of [list_orders] asks of an order. *)
Definition wanted (buyer_email : option string) (p : Order.t) : bool :=
  match truthy buyer_email with
  | Some e => String.eqb (Order.buyer_email p) e
  | None => true
  end.

(** The limit in force: the given one, or 50. *)
Definition limit_of (limit : option Z) : nat := Z.to_nat (default 50%Z limit).

(** A limit that [Query(50, ge=1, le=100)] lets through. *)
Definition limit_ok (limit : option Z) : Prop :=
  match limit with
  | Some n => (1 ≤ n ≤ 100)%Z
  | None => True
  end.

(** The filter that [list_listings] builds from its parameters. *)
Definition listings_filter (q type tag : option string) : filter_dict :=
  let filter_dict : filter_dict := ∅ in
  let filter_dict :=
    match truthy type with
    | Some type => <["type" := Cond (CEq (VStr type))]> filter_dict
    | None => filter_dict
    end in
  let filter_dict :=
    match truthy tag with
    | Some tag => <["tags" := Cond (CIn [VStr tag])]> filter_dict
    | None => filter_dict
    end in
  match truthy q with
  | Some q =>
      let regex := CRegex q true in
      <["$or" := OrOf [ {["title" := regex]};
                        {["description" := regex]};
                        {["tags" := regex]} ]]> filter_dict
  | None => filter_dict
  end.

(** The filter that [list_orders] builds from its parameter. *)
Definition orders_filter (buyer_email : option string) : filter_dict :=
  match truthy buyer_email with
  | Some buyer_email => <["buyer_email" := Cond (CEq (VStr buyer_email))]> ∅
  | None => ∅
  end.

(** ** Sample data: orders and the diagnostic endpoint *)

Definition third_id : ObjectId.t := (repeat ObjectId.H0 23 ++ [ObjectId.H3])%list.

Definition good_order : Order.t :=
  {| Order.listing_id := "000000000000000000000001";
     Order.buyer_name := "C";
     Order.buyer_email := "c@x.com";
     Order.status := "completed" |}.

Definition other_order : Order.t :=
  {| Order.listing_id := "000000000000000000000001";
     Order.buyer_name := "D";
     Order.buyer_email := "d@x.com";
     Order.status := "pending" |}.

Definition order_world : world :=
  {| collections := {["listing" := [sample_doc];
                      "order" := [order_doc (other_id, sample_id, other_order)]]};
     trace := [] |}.

Definition good_order_body : OrderBody.t :=
  {| OrderBody.listing_id := Some "000000000000000000000001";
     OrderBody.buyer_name := Some "C";
     OrderBody.buyer_email := Some "c@x.com";
     OrderBody.status := None |}.

Definition working_db : Database.t :=
  {| Database.name := "market";
     Database.list_collection_names := inr ["listing"; "order"] |}.

(** An exception whose text is 100 times the letter e with an acute
    accent, a character of two bytes. *)
Definition failing_db : Database.t :=
  {| Database.name := "market";
     Database.list_collection_names := inl (repeat 233%N 100) |}.

Definition bad_order_body : OrderBody.t :=
  {| OrderBody.listing_id := Some "not-an-id";
     OrderBody.buyer_name := Some "C";
     OrderBody.buyer_email := Some "c@x.com";
     OrderBody.status := None |}.

(** ** Identifiers: text and back *)

Lemma char_hex_hex_char (h : ObjectId.hex) :
  ObjectId.char_hex (ObjectId.hex_char h) = Some h.
Proof. destruct h; reflexivity. Qed.

Lemma is_space_hex_char (h : ObjectId.hex) :
  ObjectId.is_space (ObjectId.hex_char h) = false.
Proof. destruct h; reflexivity. Qed.

Lemma fromhex_hex_chars (n : nat) (o : ObjectId.t) :
  length o = (2 * n)%nat →
  ObjectId.fromhex (map ObjectId.hex_char o) = Some o.
Proof.
  revert o. induction n as [|n IH]; intros o Hlen.
  - by destruct o.
  - destruct o as [|h [|h' o]]; cbn in Hlen; try lia.
    cbn [map ObjectId.fromhex].
    rewrite is_space_hex_char, !char_hex_hex_char, IH by lia. done.
Qed.

Lemma length_string_of_list_ascii (l : list ascii) :
  String.length (string_of_list_ascii l) = length l.
Proof. induction l as [|c l IH]; cbn; congruence. Qed.

Lemma ObjectId_str_length (o : ObjectId.t) :
  String.length (ObjectId.str o) = length o.
Proof.
  unfold ObjectId.str. by rewrite length_string_of_list_ascii, length_map.
Qed.

(** An identifier of 12 bytes is read back from its text. *)
Lemma ObjectId_parse_str (o : ObjectId.t) :
  ObjectId.wf o → ObjectId.parse (ObjectId.str o) = Some o.
Proof.
  intros Hwf. unfold ObjectId.parse.
  rewrite ObjectId_str_length, Hwf. cbn [Nat.eqb].
  unfold ObjectId.str. rewrite list_ascii_of_string_of_list_ascii.
  apply (fromhex_hex_chars 12). by rewrite Hwf.
Qed.


Lemma hex_eqb_eq (a b : ObjectId.hex) : ObjectId.hex_eqb a b = true ↔ a = b.
Proof. split; [destruct a, b; (reflexivity || discriminate)|intros <-; by destruct a]. Qed.

Lemma ObjectId_eqb_eq (a b : ObjectId.t) : ObjectId.eqb a b = true ↔ a = b.
Proof.
  revert b. induction a as [|x a IH]; intros [|y b]; cbn; try (split; congruence).
  rewrite andb_true_iff, hex_eqb_eq, IH. split; [intros [-> ->]|intros [= -> ->]]; done.
Qed.

(** ** Matching of values and of documents *)

Lemma value_eqb_VOid_r (v : value) (o : ObjectId.t) :
  value_eqb v (VOid o) = true ↔ v = VOid o.
Proof.
  destruct v; cbn; try (split; congruence).
  rewrite ObjectId_eqb_eq. split; congruence.
Qed.

Lemma value_eqb_VStr_r (v : value) (s : string) :
  value_eqb v (VStr s) = true ↔ v = VStr s.
Proof.
  destruct v; cbn; try (split; congruence).
  rewrite String.eqb_eq. split; congruence.
Qed.

Lemma dict_falsy_insert (k : string) (v : value) (d : dict) :
  dict_falsy (<[k := v]> d) = false.
Proof.
  unfold dict_falsy. destruct (map_to_list (<[k:=v]> d)) eqn:E; [|done].
  apply map_to_list_empty_iff in E. by apply insert_non_empty in E.
Qed.

Lemma dict_falsy_lookup (k : string) (v : value) (d : dict) :
  d !! k = Some v → dict_falsy d = false.
Proof.
  intros H. rewrite <- (insert_id d k v H). apply dict_falsy_insert.
Qed.

Lemma doc_matches_lookup (f : filter_dict) (d : dict) (k : string) (e : entry) :
  doc_matches f d = true → f !! k = Some e → entry_matches k e d = true.
Proof.
  unfold doc_matches. intros H%bool_decide_eq_true_1 Hk. exact (H k e Hk).
Qed.

Lemma doc_matches_by_id (oid : ObjectId.t) (d : dict) :
  doc_matches (by_id oid) d = eq_matches (VOid oid) (d !! "_id").
Proof.
  unfold doc_matches, by_id.
  destruct (eq_matches (VOid oid) (d !! "_id")) eqn:E.
  - apply bool_decide_eq_true_2. by apply map_Forall_singleton.
  - apply bool_decide_eq_false_2. rewrite map_Forall_singleton. cbn. congruence.
Qed.

Lemma has_id_matches (oid : ObjectId.t) (d : dict) :
  has_id (VOid oid) d = true → doc_matches (by_id oid) d = true.
Proof.
  rewrite doc_matches_by_id. unfold has_id, eq_matches.
  destruct (d !! "_id") as [v|]; [|done].
  intros ->%value_eqb_VOid_r. cbn. apply ObjectId_eqb_eq. done.
Qed.

Lemma comprehension_Forall2 {A B : Type} (f : A → outcome B) (l : list A) (ys : list B) :
  comprehension f l = Return ys → Forall2 (λ x y, f x = Return y) l ys.
Proof.
  revert ys. induction l as [|x l IH]; cbn; intros ys H.
  - injection H as <-. constructor.
  - destruct (f x) as [y|] eqn:Hx; [|discriminate].
    destruct (comprehension f l) as [r|]; [|discriminate].
    injection H as <-. constructor; auto.
Qed.

Lemma comprehension_as_str (l : list string) :
  comprehension as_str (map VStr l) = Return l.
Proof. induction l as [|s l IH]; cbn; [done|]. by rewrite IH. Qed.

Lemma comprehension_as_str_inv (l : list value) (ss : list string) :
  comprehension as_str l = Return ss → l = map VStr ss.
Proof.
  intros H%comprehension_Forall2. induction H as [|v s l ss Hv _ IH]; cbn; [done|].
  destruct v; cbn in Hv; try discriminate. congruence.
Qed.

(** ** The store after an insert *)

Lemma filter_valid_by_id (oid : ObjectId.t) : filter_valid (by_id oid) = true.
Proof.
  unfold filter_valid, by_id. apply bool_decide_eq_true_2.
  by apply map_Forall_singleton.
Qed.

Lemma coll_appended (name : string) (doc : dict) (w : world) :
  coll (appended name doc w) name = (coll w name ++ [doc])%list.
Proof. unfold coll at 1, appended. cbn. by rewrite lookup_insert_eq. Qed.

Lemma filter_none {A : Type} (f : A → bool) (l : list A) :
  existsb f l = false → List.filter f l = [].
Proof.
  induction l as [|x l IH]; cbn; [done|].
  intros [-> H]%orb_false_iff. auto.
Qed.

Lemma find_one_absent (name : string) (oid : ObjectId.t) (w : world) :
  stored name oid w = false →
  find_one name (by_id oid) w = (Return None, logged (Read name) w).
Proof.
  intros H. unfold find_one. rewrite filter_valid_by_id.
  unfold stored in H. by rewrite (filter_none _ _ H).
Qed.

Lemma doc_matches_own_id (oid : ObjectId.t) (doc : dict) :
  doc_matches (by_id oid) (<["_id" := VOid oid]> doc) = true.
Proof.
  rewrite doc_matches_by_id, lookup_insert_eq. cbn. by apply ObjectId_eqb_eq.
Qed.

Lemma find_one_appended (name : string) (oid : ObjectId.t) (doc : dict) (w : world) :
  stored name oid w = false →
  find_one name (by_id oid) (appended name (<["_id" := VOid oid]> doc) w)
  = (Return (Some (<["_id" := VOid oid]> doc)),
     logged (Read name) (appended name (<["_id" := VOid oid]> doc) w)).
Proof.
  intros H. unfold find_one. rewrite filter_valid_by_id, coll_appended.
  rewrite List.filter_app. unfold stored in H. rewrite (filter_none _ _ H).
  cbn [List.filter app]. by rewrite doc_matches_own_id.
Qed.

Lemma insert_one_fresh (name : string) (doc : dict) (oid : ObjectId.t) (w : world) :
  doc_encodable doc = true →
  doc !! "_id" = None →
  stored name oid w = false →
  insert_one name doc oid w
  = (Return (VOid oid), appended name (<["_id" := VOid oid]> doc) (logged (Write name) w)).
Proof.
  intros Henc Hno H. unfold insert_one. rewrite Henc, Hno. cbn [negb default].
  destruct (existsb (has_id (VOid oid)) (coll w name)) eqn:E; [|done].
  apply existsb_exists in E as (d & Hd & Hid%has_id_matches).
  unfold stored in H. rewrite <- not_true_iff_false in H.
  destruct H. apply existsb_exists. eauto.
Qed.

Lemma find_one_world (name : string) (f : filter_dict) (w w' : world)
    (r : outcome (option dict)) :
  find_one name f w = (r, w') → w' = logged (Read name) w.
Proof. unfold find_one. destruct (filter_valid f); by intros [= _ <-]. Qed.

Lemma coll_appended_other (name other : string) (doc : dict) (w : world) :
  other ≠ name → coll (appended name doc w) other = coll w other.
Proof. intros H. unfold coll, appended. cbn. by rewrite lookup_insert_ne. Qed.

(** What an insert leaves: nothing new when it raises, and otherwise the
    document, which the driver could encode, at the end of the collection. *)
Lemma insert_one_world (name : string) (doc : dict) (new_id : ObjectId.t)
    (w w' : world) (r : outcome value) :
  doc !! "_id" = None →
  insert_one name doc new_id w = (r, w') →
  (∃ e, r = Raise e ∧ (w' = w ∨ w' = logged (Write name) w))
  ∨ (r = Return (VOid new_id)
     ∧ doc_encodable doc = true
     ∧ w' = appended name (<["_id" := VOid new_id]> doc) (logged (Write name) w)).
Proof.
  intros Hno. unfold insert_one. rewrite Hno. cbn [default].
  destruct (doc_encodable doc); cbn [negb].
  2:{ intros H. injection H as <- <-. eauto. }
  destruct (existsb (has_id (VOid new_id)) (coll w name));
    intros H; injection H as <- <-; eauto.
Qed.

Lemma Listing_dump_no_id (p : Listing.t) : Listing_model_dump p !! "_id" = None.
Proof. reflexivity. Qed.

(** ** Dumped payloads and what the driver can encode *)

Lemma encodable_texts (l : list string) : forallb encodable (map VStr l) = true.
Proof. induction l as [|s l IH]; cbn; [done|exact IH]. Qed.

Lemma Listing_dump_fields (p : Listing.t) :
  Listing.demo_url p = None → Listing.thumbnail_url p = None →
  Listing_model_dump p = listing_fields p.
Proof. destruct p; cbn. by intros -> ->. Qed.

Lemma listing_fields_encodable (p : Listing.t) :
  Listing.demo_url p = None → Listing.thumbnail_url p = None →
  doc_encodable (listing_fields p) = true.
Proof.
  intros Hdemo Hthumb. apply bool_decide_eq_true_2.
  intros k v Hkv. unfold listing_fields in Hkv.
  apply elem_of_list_to_map_2 in Hkv. rewrite Hdemo, Hthumb in Hkv.
  repeat (apply elem_of_cons in Hkv as [Hkv|Hkv];
          [injection Hkv as -> ->; first [reflexivity|apply encodable_texts]|]).
  by apply elem_of_nil in Hkv.
Qed.

Lemma Listing_dump_encodable (p : Listing.t) :
  Listing.demo_url p = None → Listing.thumbnail_url p = None →
  doc_encodable (Listing_model_dump p) = true.
Proof.
  intros Hdemo Hthumb. rewrite Listing_dump_fields by done.
  by apply listing_fields_encodable.
Qed.

Lemma Listing_dump_not_encodable (p : Listing.t) :
  Listing.demo_url p ≠ None ∨ Listing.thumbnail_url p ≠ None →
  doc_encodable (Listing_model_dump p) = false.
Proof.
  intros Hurl. apply bool_decide_eq_false_2. intros Hall.
  assert (Hdemo : Listing_model_dump p !! "demo_url"
                  = Some (url_value (Listing.demo_url p))) by reflexivity.
  assert (Hthumb : Listing_model_dump p !! "thumbnail_url"
                   = Some (url_value (Listing.thumbnail_url p))) by reflexivity.
  apply Hall in Hdemo, Hthumb.
  destruct (Listing.demo_url p), (Listing.thumbnail_url p);
    try discriminate. by destruct Hurl.
Qed.

Lemma ListingOut_init_stored (oid : ObjectId.t) (p : Listing.t) :
  ListingOut_init (serialize_doc (Some (listing_doc (oid, p))))
  = Return (ListingOut_of (ObjectId.str oid) p).
Proof.
  unfold listing_doc, serialize_doc. cbn [fst snd].
  rewrite dict_falsy_insert, lookup_insert_eq.
  cbn [py_str].
  rewrite delete_insert_eq.
  set (d' := <["id":=VStr (ObjectId.str oid)]> (delete "_id" (listing_fields p))).
  change (d' !! "listing_id") with (@None value). cbv iota.
  assert (Htags : arg_str_list d' "tags" = Return (Listing.tags p)).
  { unfold arg_str_list.
    change (d' !! "tags") with (Some (VList (map VStr (Listing.tags p)))).
    apply comprehension_as_str. }
  unfold ListingOut_init.
  change (arg_str d' "id") with (Return (ObjectId.str oid)).
  change (arg_str d' "title") with (Return (Listing.title p)).
  change (arg_str d' "type") with (Return (Listing.type p)).
  change (arg_str d' "description") with (Return (Listing.description p)).
  change (arg_float d' "price") with (Return (Listing.price p)).
  change (arg_str d' "seller_name") with (Return (Listing.seller_name p)).
  change (arg_str d' "seller_email") with (Return (Listing.seller_email p)).
  rewrite Htags. cbn [mbind outcome_bind].
  unfold arg_opt_str.
  change (d' !! "demo_url") with (Some (opt_value (Listing.demo_url p))).
  change (d' !! "thumbnail_url") with (Some (opt_value (Listing.thumbnail_url p))).
  destruct p as [? ? ? ? ? ? ? [?|] [?|]]; reflexivity.
Qed.

(** A listing without URLs, written under a fresh identifier, is read back
    as it was given. *)
Lemma create_listing_fresh (new_id : ObjectId.t) (payload : Listing.t) (w : world) :
  Listing.demo_url payload = None →
  Listing.thumbnail_url payload = None →
  ObjectId.wf new_id →
  stored "listing" new_id w = false →
  create_listing new_id payload w
  = (Return (ListingOut_of (ObjectId.str new_id) payload),
     logged (Read "listing")
       (appended "listing" (listing_doc (new_id, payload))
          (logged (Write "listing") w))).
Proof.
  intros Hdemo Hthumb Hwf Hfresh.
  unfold create_listing, create_document.
  unfold mbind at 1 2 3 4. unfold M_bind.
  rewrite (Listing_dump_fields _ Hdemo Hthumb).
  rewrite (insert_one_fresh _ _ _ _ (listing_fields_encodable _ Hdemo Hthumb)
             eq_refl Hfresh).
  cbn [mret M_ret py_str]. unfold ObjectId_of.
  rewrite (ObjectId_parse_str _ Hwf). cbn [mret M_ret].
  rewrite find_one_appended by exact Hfresh.
  unfold lift.
  pose proof (ListingOut_init_stored new_id payload) as Hout.
  unfold listing_doc in Hout. cbn [fst snd] in Hout. by rewrite Hout.
Qed.

(** A listing with a URL is refused by the driver: its dump holds a [Url]
    object. *)
Lemma create_listing_url (new_id : ObjectId.t) (payload : Listing.t) (w : world) :
  Listing.demo_url payload ≠ None ∨ Listing.thumbnail_url payload ≠ None →
  create_listing new_id payload w = (Raise InvalidDocument, w).
Proof.
  intros Hurl. unfold create_listing, create_document.
  unfold mbind at 1 2 3 4. unfold M_bind. unfold insert_one.
  by rewrite (Listing_dump_not_encodable _ Hurl).
Qed.


(** C3. For every Order payload whose [listing_id] is not a well-formed
    identifier, [create_order] fails with 400 and the store is as before:
    the collections and the trace of calls are unchanged, so no read and no
    write reached it. *)
Theorem create_order_malformed_id (new_id : ObjectId.t) (payload : Order.t) (w : world) :
  ObjectId.parse (Order.listing_id payload) = None →
  create_order new_id payload w = (Raise (HTTPException 400 "Invalid listing id"), w).
Proof. intros H. unfold create_order. by rewrite H. Qed.

(** C2. For every Order payload whose [listing_id] is a well-formed
    identifier under which no Listing is stored, [create_order] fails with
    404, no collection changes, and the only call on the store is the one
    read of the listings. *)
Theorem create_order_unknown_listing (new_id oid : ObjectId.t) (payload : Order.t) (w : world) :
  ObjectId.parse (Order.listing_id payload) = Some oid →
  stored "listing" oid w = false →
  ∃ w' : world,
    create_order new_id payload w = (Raise (HTTPException 404 "Listing not found"), w') ∧
    collections w' = collections w ∧
    trace w' = (trace w ++ [Read "listing"])%list.
Proof.
  intros Hparse Habsent. exists (logged (Read "listing") w).
  split; [|done].
  unfold create_order. rewrite Hparse.
  unfold mbind at 1. unfold M_bind. by rewrite find_one_absent.
Qed.

Lemma eq_matches_Some (v : ObjectId.t) (field : option value) :
  eq_matches (VOid v) field = true → ∃ x, field = Some x.
Proof. destruct field; [eauto|discriminate]. Qed.

Lemma find_one_first (name : string) (oid : ObjectId.t) (d : dict) (w : world) :
  head (List.filter (doc_matches (by_id oid)) (coll w name)) = Some d →
  find_one name (by_id oid) w = (Return (Some d), logged (Read name) w)
  ∧ falsy (Some d) = false.
Proof.
  intros H. unfold find_one. rewrite filter_valid_by_id, H. split; [done|].
  apply head_Some_elem_of, list_elem_of_In, filter_In in H as [_ H].
  rewrite doc_matches_by_id in H. apply eq_matches_Some in H as [x Hx].
  by apply (dict_falsy_lookup "_id" x).
Qed.

Lemma find_one_last (name : string) (oid : ObjectId.t) (doc : dict)
    (old : list dict) (w : world) :
  coll w name = (old ++ [<["_id" := VOid oid]> doc])%list →
  existsb (doc_matches (by_id oid)) old = false →
  find_one name (by_id oid) w
  = (Return (Some (<["_id" := VOid oid]> doc)), logged (Read name) w).
Proof.
  intros Hcoll H. unfold find_one. rewrite filter_valid_by_id, Hcoll.
  rewrite List.filter_app, (filter_none _ _ H).
  cbn [List.filter app]. by rewrite doc_matches_own_id.
Qed.

(** C7. [get_listing] fails with 400 and leaves the store untouched when
    the id is not a well-formed identifier; fails with 404 when no stored
    record is found under the well-formed id; otherwise returns the
    response built from the serialized document that was found; and on the
    id of a listing that was just created it returns that same listing. *)
Theorem get_listing_outcomes (listing_id : string) (w : world) :
  (ObjectId.parse listing_id = None →
     get_listing listing_id w = (Raise (HTTPException 400 "Invalid listing id"), w))
  ∧ (∀ oid : ObjectId.t,
       ObjectId.parse listing_id = Some oid →
       stored "listing" oid w = false →
       get_listing listing_id w
       = (Raise (HTTPException 404 "Listing not found"), logged (Read "listing") w))
  ∧ (∀ (oid : ObjectId.t) (doc : dict),
       ObjectId.parse listing_id = Some oid →
       head (List.filter (doc_matches (by_id oid)) (coll w "listing")) = Some doc →
       get_listing listing_id w
       = (ListingOut_init (serialize_doc (Some doc)), logged (Read "listing") w))
  ∧ (∀ (new_id : ObjectId.t) (payload : Listing.t) (w0 : world) (r : ListingOut.t),
       ObjectId.wf new_id →
       stored "listing" new_id w0 = false →
       create_listing new_id payload w0 = (Return r, w) →
       listing_id = ListingOut.id r →
       get_listing listing_id w = (Return r, logged (Read "listing") w)).
Proof.
  repeat split.
  - intros H. unfold get_listing. by rewrite H.
  - intros oid Hparse Habsent. unfold get_listing. rewrite Hparse.
    unfold mbind, M_bind. by rewrite find_one_absent.
  - intros oid doc Hparse Hfound. unfold get_listing. rewrite Hparse.
    unfold mbind, M_bind.
    destruct (find_one_first _ _ _ _ Hfound) as [-> Hfalsy].
    by rewrite Hfalsy.
  - intros new_id payload w0 r Hwf Hfresh Hcreate ->.
    destruct (Listing.demo_url payload) as [u|] eqn:Hdemo.
    { rewrite create_listing_url in Hcreate
        by (left; rewrite Hdemo; discriminate).
      discriminate. }
    destruct (Listing.thumbnail_url payload) as [u|] eqn:Hthumb.
    { rewrite create_listing_url in Hcreate
        by (right; rewrite Hthumb; discriminate).
      discriminate. }
    rewrite (create_listing_fresh _ _ _ Hdemo Hthumb Hwf Hfresh) in Hcreate.
    injection Hcreate as <- <-. cbn [ListingOut_of ListingOut.id].
    unfold get_listing. rewrite (ObjectId_parse_str _ Hwf).
    unfold mbind, M_bind.
    rewrite (find_one_last "listing" new_id (listing_fields payload)
               (coll w0 "listing"));
      [|exact (coll_appended _ _ (logged (Write "listing") w0))|exact Hfresh].
    cbn [falsy]. rewrite dict_falsy_insert.
    unfold lift.
    pose proof (ListingOut_init_stored new_id payload) as Hout.
    unfold listing_doc in Hout. cbn [fst snd] in Hout. by rewrite Hout.
Qed.

(** C8. Serialization of a stored document, which carries its identifier
    under [_id]: the result has no [_id]; it has the text form of the
    identifier under [id]; its [listing_id] is the text form of the
    document's [listing_id] exactly when that field is there and holds an
    identifier of the store, and is as in the document otherwise; every
    other field is as in the document. *)
Theorem serialize_doc_fields (doc : dict) (v : value) :
  doc !! "_id" = Some v →
  ∃ d : dict,
    serialize_doc (Some doc) = Some d ∧
    d !! "_id" = None ∧
    d !! "id" = Some (VStr (py_str v)) ∧
    (∀ o : ObjectId.t, v = VOid o → d !! "id" = Some (VStr (ObjectId.str o))) ∧
    d !! "listing_id"
      = match doc !! "listing_id" with
        | Some (VOid o) => Some (VStr (ObjectId.str o))
        | other => other
        end ∧
    (∀ k : string, k ≠ "_id" → k ≠ "id" → k ≠ "listing_id" → d !! k = doc !! k).
Proof.
  intros Hid. unfold serialize_doc.
  rewrite (dict_falsy_lookup _ _ _ Hid), Hid.
  set (d1 := <["id" := VStr (py_str v)]> (delete "_id" doc)).
  assert (H1 : d1 !! "_id" = None).
  { unfold d1. rewrite lookup_insert_ne by done. apply lookup_delete_eq. }
  assert (H2 : d1 !! "id" = Some (VStr (py_str v))) by apply lookup_insert_eq.
  assert (H3 : ∀ k, k ≠ "_id" → k ≠ "id" → d1 !! k = doc !! k).
  { intros k Hk Hk'. unfold d1.
    rewrite lookup_insert_ne by done. by rewrite lookup_delete_ne. }
  rewrite (H3 "listing_id") by done.
  destruct (doc !! "listing_id") as [[| | | |o|u]|] eqn:Hl;
    eexists; (split; [reflexivity|]);
    repeat split; rewrite ?lookup_insert_eq, ?lookup_insert_ne by done;
    try done; try (by intros o' ->); try (rewrite H3 by done; done);
    intros k ? ? ?; rewrite ?lookup_insert_ne by done; by apply H3.
Qed.

(** ** Validation *)

Lemma negative_not_ge_zero (p : spec_float) :
  SFltb p zero = true → SFleb zero p = false.
Proof. destruct p as [[]|[]| |[] m e]; cbn; congruence. Qed.

Lemma ge_zero_Return (x y : spec_float) :
  ge zero x = Return y → x = y ∧ SFleb zero y = true.
Proof. unfold ge. destruct (SFleb zero x) eqn:E; [|discriminate]. by intros [= <-]. Qed.

Lemma Listing_validate_price (b : ListingBody.t) (l : Listing.t) :
  Listing_validate b = Return l → SFleb zero (Listing.price l) = true.
Proof.
  unfold Listing_validate. destruct b as [t ty de pr tg sn se du tu]. cbn.
  destruct t, ty, de, pr as [p|]; cbn; try discriminate.
  destruct (ge zero p) as [p'|] eqn:Hp; cbn; [|discriminate].
  apply ge_zero_Return in Hp as [_ Hp].
  destruct sn, se as [e|]; cbn; try discriminate.
  destruct (checked email_str e); cbn; [|discriminate].
  destruct (checked_opt http_url du); cbn; [|discriminate].
  destruct (checked_opt http_url tu); cbn; [|discriminate].
  by intros [= <-].
Qed.

Lemma Listing_validate_negative (b : ListingBody.t) (p : spec_float) :
  ListingBody.price b = Some p → SFltb p zero = true →
  Listing_validate b = Raise RequestValidationError.
Proof.
  intros Hp Hneg%negative_not_ge_zero.
  unfold Listing_validate. destruct b as [t ty de pr tg sn se du tu].
  cbn in Hp. subst pr. cbn.
  destruct t, ty, de; cbn; try reflexivity.
  unfold ge. by rewrite Hneg.
Qed.

(** What [create_listing] leaves in the collection of listings: nothing
    new, or the dumped payload under the generated identifier. *)
Lemma create_listing_writes (new_id : ObjectId.t) (payload : Listing.t)
    (w w' : world) (r : outcome ListingOut.t) :
  create_listing new_id payload w = (r, w') →
  coll w' "listing" = coll w "listing"
  ∨ coll w' "listing"
    = (coll w "listing" ++ [<["_id" := VOid new_id]> (Listing_model_dump payload)])%list.
Proof.
  unfold create_listing, create_document.
  unfold mbind at 1 2 3 4. unfold M_bind.
  destruct (insert_one _ _ _ w) as [r1 w1] eqn:Hins.
  apply (insert_one_world _ _ _ _ _ _ (Listing_dump_no_id payload)) in Hins
    as [(e & -> & [-> | ->])|(-> & _ & ->)].
  1,2: intros [= _ <-]; by left.
  cbn [mret M_ret py_str]. unfold ObjectId_of.
  destruct (ObjectId.parse _) as [oid|]; cbn [mret M_ret raise].
  2:{ intros [= _ <-]. right. exact (coll_appended _ _ (logged (Write "listing") w)). }
  destruct (find_one _ _ _) as [[doc|e] w2] eqn:Hf;
    apply find_one_world in Hf as ->; unfold lift;
    intros [= _ <-]; right; exact (coll_appended _ _ (logged (Write "listing") w)).
Qed.

(** C9. Every Listing accepted by validation has a non-negative price; the
    validation of a body with a negative price fails; the route then fails
    with a validation error without a call on the store; and the route
    keeps the prices of all stored listings non-negative. *)
Theorem listing_price_nonnegative (new_id : ObjectId.t) (body : ListingBody.t) (w : world) :
  (∀ l : Listing.t,
     Listing_validate body = Return l → SFleb zero (Listing.price l) = true)
  ∧ (∀ p : spec_float,
       ListingBody.price body = Some p → SFltb p zero = true →
       Listing_validate body = Raise RequestValidationError
       ∧ POST_api_listings new_id body w = (Raise RequestValidationError, w))
  ∧ (∀ (r : outcome ListingOut.t) (w' : world),
       Forall price_ok (coll w "listing") →
       POST_api_listings new_id body w = (r, w') →
       Forall price_ok (coll w' "listing")).
Proof.
  split; [|split].
  - apply Listing_validate_price.
  - intros p Hp Hneg. split; [by apply Listing_validate_negative with p|].
    unfold POST_api_listings, mbind, M_bind, lift.
    by rewrite (Listing_validate_negative _ _ Hp Hneg).
  - intros r w' Hinv. unfold POST_api_listings, mbind, M_bind, lift.
    destruct (Listing_validate body) as [l|e] eqn:Hval.
    2:{ by intros [= _ <-]. }
    intros [->| ->]%create_listing_writes; [done|].
    apply Forall_app. split; [done|]. constructor; [|constructor].
    exists (Listing.price l). split; [reflexivity|].
    by apply Listing_validate_price with body.
Qed.

(** C10. In [list_listings] and [list_orders] a parameter given as the
    empty text is the same as an absent parameter: the handlers are then
    the same function of the store. *)
Theorem empty_parameter_is_absent (q type tag buyer_email : option string) (limit : option Z) :
  list_listings (Some "") type tag limit = list_listings None type tag limit
  ∧ list_listings q (Some "") tag limit = list_listings q None tag limit
  ∧ list_listings q type (Some "") limit = list_listings q type None limit
  ∧ list_orders (Some "") limit = list_orders None limit.
Proof. repeat split. Qed.

(** ** Listing with a limit *)

Lemma comprehension_length {A B : Type} (f : A → outcome B) (l : list A) (ys : list B) :
  comprehension f l = Return ys → length ys = length l.
Proof. intros H%comprehension_Forall2. symmetry. by eapply Forall2_length. Qed.

Lemma Query_Return (default lo hi : Z) (given : option Z) (n : Z) (w w' : world) :
  Query default lo hi given w = (Return n, w') →
  w' = w ∧ n = (match given with Some m => m | None => default end)
  ∧ (given = None ∨ (lo ≤ n ≤ hi)%Z).
Proof.
  unfold Query. destruct given as [m|]; cbn.
  - destruct ((lo <=? m)%Z && (m <=? hi)%Z) eqn:E; cbn; [|discriminate].
    intros [= <- <-]. apply andb_true_iff in E as [?%Z.leb_le ?%Z.leb_le]. auto.
  - intros [= <- <-]. auto.
Qed.

Lemma Query_out_of_range (default lo hi n : Z) (w : world) :
  (n < lo ∨ hi < n)%Z →
  Query default lo hi (Some n) w = (Raise RequestValidationError, w).
Proof.
  intros H. unfold Query.
  destruct ((lo <=? n)%Z && (n <=? hi)%Z) eqn:E; [|done].
  apply andb_true_iff in E as [?%Z.leb_le ?%Z.leb_le]. lia.
Qed.

(** What [get_documents] returns: the first [limit] matches, in the order
    of the collection. *)
Lemma get_documents_Return (name : string) (f : filter_dict) (limit : Z)
    (docs : list dict) (w w' : world) :
  get_documents name f limit w = (Return docs, w') →
  filter_valid f = true
  ∧ docs = firstn (Z.to_nat limit)
             (arrange order f (List.filter (doc_matches f) (coll w name)))
  ∧ w' = logged (Read name) w.
Proof.
  unfold get_documents, mbind, M_bind, find.
  destruct (filter_valid f); [|discriminate].
  cbn. by intros [= <- <-].
Qed.

(** Both listing handlers have one shape: check the limit, fetch, build the
    responses. *)
Lemma fetched_length {A : Type} (name : string) (f : filter_dict)
    (build : dict → outcome A) (limit : option Z) (rs : list A) (w w' : world) :
  (n ← Query 50 1 100 limit;
   docs ← get_documents name f n;
   lift (comprehension build docs)) w = (Return rs, w') →
  (Z.of_nat (length rs) ≤ default 50 limit)%Z.
Proof.
  unfold mbind at 1. unfold M_bind at 1.
  destruct (Query 50 1 100 limit w) as [[n|e] w1] eqn:HQ; [|discriminate].
  apply Query_Return in HQ as (-> & Hn & Hrange).
  unfold mbind, M_bind.
  destruct (get_documents _ _ _ _) as [[docs|e] w2] eqn:HG; [|discriminate].
  apply get_documents_Return in HG as (_ & -> & _).
  unfold lift. intros [= Hrs%comprehension_length _].
  rewrite Hrs, length_take.
  replace (default 50%Z limit) with n by (by destruct limit).
  destruct Hrange as [->| ?]; cbn in *; lia.
Qed.

Lemma list_listings_length (q type tag : option string) (limit : option Z)
    (rs : list ListingOut.t) (w w' : world) :
  list_listings q type tag limit w = (Return rs, w') →
  (Z.of_nat (length rs) ≤ default 50 limit)%Z.
Proof. unfold list_listings. cbv zeta. apply fetched_length. Qed.

Lemma list_orders_length (buyer_email : option string) (limit : option Z)
    (rs : list OrderOut.t) (w w' : world) :
  list_orders buyer_email limit w = (Return rs, w') →
  (Z.of_nat (length rs) ≤ default 50 limit)%Z.
Proof. unfold list_orders. cbv zeta. apply fetched_length. Qed.

(** C6. [list_listings] and [list_orders] return at most [limit] records,
    with 50 for [limit] when it is omitted, and fail with a validation
    error, the store untouched, on a given limit outside 1..100. *)
Theorem limit_respected (q type tag buyer_email : option string) (limit : option Z) (w : world) :
  (∀ (rs : list ListingOut.t) (w' : world),
     list_listings q type tag limit w = (Return rs, w') →
     (Z.of_nat (length rs) ≤ default 50 limit)%Z)
  ∧ (∀ (rs : list OrderOut.t) (w' : world),
       list_orders buyer_email limit w = (Return rs, w') →
       (Z.of_nat (length rs) ≤ default 50 limit)%Z)
  ∧ list_listings q type tag None = list_listings q type tag (Some 50%Z)
  ∧ list_orders buyer_email None = list_orders buyer_email (Some 50%Z)
  ∧ (∀ n : Z,
       limit = Some n → (n < 1 ∨ 100 < n)%Z →
       list_listings q type tag limit w = (Raise RequestValidationError, w)
       ∧ list_orders buyer_email limit w = (Raise RequestValidationError, w)).
Proof.
  split; [|split; [|split; [|split]]].
  - intros rs w'. apply list_listings_length.
  - intros rs w'. apply list_orders_length.
  - reflexivity.
  - reflexivity.
  - intros n -> Hn. unfold list_listings, list_orders.
    unfold mbind at 1 3. unfold M_bind at 1 3.
    by rewrite (Query_out_of_range _ _ _ _ _ Hn).
Qed.

(** ** What a returned record says about the document behind it *)

Lemma serialize_doc_other (doc : dict) :
  ∃ d : dict,
    serialize_doc (Some doc) = Some d
    ∧ ∀ k : string, k ≠ "_id" → k ≠ "id" → k ≠ "listing_id" → d !! k = doc !! k.
Proof.
  unfold serialize_doc. destruct (dict_falsy doc); [by eexists|].
  set (d1 := match doc !! "_id" with
             | Some v => <["id" := VStr (py_str v)]> (delete "_id" doc)
             | None => doc
             end).
  assert (H1 : ∀ k, k ≠ "_id" → k ≠ "id" → d1 !! k = doc !! k).
  { intros k Hk Hk'. unfold d1. destruct (doc !! "_id"); [|done].
    rewrite lookup_insert_ne by done. by rewrite lookup_delete_ne. }
  destruct (d1 !! "listing_id") as [[| | | |o|u]|]; eexists; (split; [reflexivity|]);
    intros k ? ? ?; rewrite ?lookup_insert_ne by done; by apply H1.
Qed.

Lemma arg_str_Return (d : dict) (k s : string) :
  arg_str d k = Return s → d !! k = Some (VStr s).
Proof. unfold arg_str. destruct (d !! k) as [[]|]; congruence. Qed.

Lemma arg_str_list_Return (d : dict) (k : string) (ss : list string) :
  arg_str_list d k = Return ss →
  (d !! k = None ∧ ss = []) ∨ d !! k = Some (VList (map VStr ss)).
Proof.
  unfold arg_str_list. destruct (d !! k) as [[| | |l| |]|]; try discriminate.
  - intros ->%comprehension_as_str_inv. by right.
  - intros [= <-]. by left.
Qed.

Lemma ListingOut_init_fields (d : dict) (r : ListingOut.t) :
  ListingOut_init (Some d) = Return r →
  d !! "title" = Some (VStr (ListingOut.title r))
  ∧ d !! "type" = Some (VStr (ListingOut.type r))
  ∧ d !! "description" = Some (VStr (ListingOut.description r))
  ∧ ((d !! "tags" = None ∧ ListingOut.tags r = [])
     ∨ d !! "tags" = Some (VList (map VStr (ListingOut.tags r)))).
Proof.
  unfold ListingOut_init, mbind, outcome_bind.
  destruct (arg_str d "id") eqn:H0; [|discriminate].
  destruct (arg_str d "title") eqn:H1; [|discriminate].
  destruct (arg_str d "type") eqn:H2; [|discriminate].
  destruct (arg_str d "description") eqn:H3; [|discriminate].
  destruct (arg_float d "price"); [|discriminate].
  destruct (arg_str_list d "tags") eqn:H4; [|discriminate].
  destruct (arg_str d "seller_name"); [|discriminate].
  destruct (arg_str d "seller_email"); [|discriminate].
  destruct (arg_opt_str d "demo_url"); [|discriminate].
  destruct (arg_opt_str d "thumbnail_url"); [|discriminate].
  intros [= <-]. cbn.
  apply arg_str_Return in H1, H2, H3. apply arg_str_list_Return in H4. auto.
Qed.

(** The fields of a returned record that the filters look at are those of
    the stored document. *)
Lemma returned_fields (doc : dict) (r : ListingOut.t) :
  ListingOut_init (serialize_doc (Some doc)) = Return r →
  doc !! "title" = Some (VStr (ListingOut.title r))
  ∧ doc !! "type" = Some (VStr (ListingOut.type r))
  ∧ doc !! "description" = Some (VStr (ListingOut.description r))
  ∧ ((doc !! "tags" = None ∧ ListingOut.tags r = [])
     ∨ doc !! "tags" = Some (VList (map VStr (ListingOut.tags r)))).
Proof.
  destruct (serialize_doc_other doc) as (d & -> & Hd).
  intros H%ListingOut_init_fields.
  by rewrite !Hd in H.
Qed.

Lemma existsb_map_VStr (f : string → bool) (g : value → bool) (l : list string) :
  (∀ s, g (VStr s) = f s) → existsb g (map VStr l) = existsb f l.
Proof. intros H. induction l as [|s l IH]; cbn; [done|]. by rewrite H, IH. Qed.

Lemma tag_in_tags (tag : string) (doc : dict) (r : ListingOut.t) :
  ListingOut_init (serialize_doc (Some doc)) = Return r →
  cond_matches (CIn [VStr tag]) (doc !! "tags") = true →
  In tag (ListingOut.tags r).
Proof.
  intros (_ & _ & _ & [[-> _]| ->])%returned_fields; cbn; [discriminate|].
  rewrite orb_false_r.
  intros (y & Hy & ->%value_eqb_VStr_r)%existsb_exists.
  apply in_map_iff in Hy as (s & [= ->] & Hs). done.
Qed.



(** ** The filter of [list_listings] *)

Lemma conds_match_singleton (k : string) (c : cond) (d : dict) :
  conds_match {[k := c]} d = cond_matches c (d !! k).
Proof.
  unfold conds_match. destruct (cond_matches c (d !! k)) eqn:E.
  - apply bool_decide_eq_true_2. by apply map_Forall_singleton.
  - apply bool_decide_eq_false_2. rewrite map_Forall_singleton. congruence.
Qed.

Lemma Forall2_In_r {A B : Type} (P : A → B → Prop) (l : list A) (k : list B) (y : B) :
  Forall2 P l k → In y k → ∃ x, In x l ∧ P x y.
Proof.
  induction 1 as [|a b l k Hab _ IH]; cbn; [done|].
  intros [<-|Hy]; [eauto|]. destruct (IH Hy) as (x & ? & ?). eauto.
Qed.

Lemma In_take {A : Type} (n : nat) (l : list A) (x : A) : In x (take n l) → In x l.
Proof.
  revert l. induction n as [|n IH]; intros [|a l]; cbn; try done.
  intros [->|H]; auto.
Qed.

(** Every returned record is built from a stored document that passes each
    of the filters that were asked for. *)
Lemma list_listings_sound (q type tag : option string) (limit : option Z)
    (rs : list ListingOut.t) (w w' : world) (r : ListingOut.t) :
  list_listings q type tag limit w = (Return rs, w') →
  In r rs →
  ∃ doc : dict,
    In doc (coll w "listing")
    ∧ ListingOut_init (serialize_doc (Some doc)) = Return r
    ∧ (∀ t, truthy type = Some t →
         cond_matches (CEq (VStr t)) (doc !! "type") = true)
    ∧ (∀ g, truthy tag = Some g →
         cond_matches (CIn [VStr g]) (doc !! "tags") = true)
    ∧ (∀ x, truthy q = Some x →
         regex_matches x true (doc !! "title")
         || regex_matches x true (doc !! "description")
         || regex_matches x true (doc !! "tags") = true).
Proof.
  unfold list_listings. unfold mbind at 1. unfold M_bind at 1.
  destruct (Query 50 1 100 limit w) as [[n|e] w1] eqn:HQ; [|discriminate].
  apply Query_Return in HQ as (-> & _ & _).
  cbv zeta. unfold mbind, M_bind.
  destruct (get_documents _ _ _ _) as [[docs|e] w2] eqn:HG; [|discriminate].
  apply get_documents_Return in HG as (Hsup & -> & _).
  unfold lift. intros [= Hrs%comprehension_Forall2 _] Hr.
  destruct (Forall2_In_r _ _ _ _ Hrs Hr) as (doc & Hdoc & Hinit).
  apply In_take, (Permutation_in _ (arrange_perm order _ _)), filter_In in Hdoc
    as [Hdoc Hmatch].
  exists doc. split; [done|]. split; [done|].
  set (f := match truthy q with Some _ => _ | None => _ end) in *.
  split; [|split].
  - intros t Ht.
    assert (Hf : f !! "type" = Some (Cond (CEq (VStr t)))).
    { unfold f. rewrite Ht. destruct (truthy q), (truthy tag); reflexivity. }
    exact (doc_matches_lookup _ _ _ _ Hmatch Hf).
  - intros g Hg.
    assert (Hf : f !! "tags" = Some (Cond (CIn [VStr g]))).
    { unfold f. rewrite Hg. destruct (truthy q), (truthy type); reflexivity. }
    exact (doc_matches_lookup _ _ _ _ Hmatch Hf).
  - intros x Hx.
    assert (Hf : f !! "$or" = Some (OrOf [ {["title" := CRegex x true]};
                                           {["description" := CRegex x true]};
                                           {["tags" := CRegex x true]} ])).
    { unfold f. rewrite Hx. apply lookup_insert_eq. }
    pose proof (doc_matches_lookup _ _ _ _ Hmatch Hf) as H.
    cbn [entry_matches existsb] in H.
    by rewrite !conds_match_singleton, orb_false_r, orb_assoc in H.
Qed.

(** ** What a search returns *)


(** C5, as the code has it.  For every tag value X that is not empty,
    [list_listings] with [tag = X] returns only records whose list of tags
    has X itself as an element. *)
Theorem list_listings_tag_exact (X : string) (q type : option string)
    (limit : option Z) (w w' : world) (rs : list ListingOut.t) (r : ListingOut.t) :
  X ≠ "" →
  list_listings q type (Some X) limit w = (Return rs, w') →
  In r rs →
  In X (ListingOut.tags r).
Proof.
  intros HX Hcall Hr.
  destruct (list_listings_sound _ _ _ _ _ _ _ _ Hcall Hr)
    as (doc & _ & Hinit & _ & Htag & _).
  apply tag_in_tags with doc; [done|]. apply Htag.
  by destruct X.
Qed.

(** ** Placing an order *)

Lemma order_data_no_id (oid : ObjectId.t) (p : Order.t) :
  (<["listing_id" := VOid oid]> (Order_model_dump p) : dict) !! "_id" = None.
Proof. reflexivity. Qed.

Lemma order_data_encodable (oid : ObjectId.t) (p : Order.t) :
  doc_encodable (<["listing_id" := VOid oid]> (Order_model_dump p)) = true.
Proof.
  apply bool_decide_eq_true_2. apply map_Forall_insert_2; [done|].
  intros k v Hkv. unfold Order_model_dump in Hkv.
  apply elem_of_list_to_map_2 in Hkv.
  repeat (apply elem_of_cons in Hkv as [Hkv|Hkv];
          [injection Hkv as -> ->; reflexivity|]).
  by apply elem_of_nil in Hkv.
Qed.

Lemma OrderOut_init_stored (e : ObjectId.t * ObjectId.t * Order.t) :
  OrderOut_init (serialize_doc (Some (order_doc e))) = Return (order_out e).
Proof.
  destruct e as [[id lid] p]. unfold order_doc, serialize_doc. cbn [fst snd].
  rewrite dict_falsy_insert, lookup_insert_eq. cbn [py_str].
  rewrite delete_insert_eq.
  set (d1 := <["id" := VStr (ObjectId.str id)]>
               (delete "_id" (<["listing_id" := VOid lid]> (Order_model_dump p)))).
  change (d1 !! "listing_id") with (Some (VOid lid)). cbv iota.
  set (d2 := <["listing_id" := VStr (ObjectId.str lid)]> d1).
  unfold OrderOut_init.
  change (arg_str d2 "id") with (Return (ObjectId.str id)).
  change (arg_str d2 "listing_id") with (Return (ObjectId.str lid)).
  change (arg_str d2 "buyer_name") with (Return (Order.buyer_name p)).
  change (arg_str d2 "buyer_email") with (Return (Order.buyer_email p)).
  change (arg_str d2 "status") with (Return (Order.status p)).
  reflexivity.
Qed.

Lemma find_one_stored (name : string) (oid : ObjectId.t) (w : world) :
  stored name oid w = true →
  ∃ d : dict,
    find_one name (by_id oid) w = (Return (Some d), logged (Read name) w)
    ∧ falsy (Some d) = false.
Proof.
  unfold stored. intros (d & Hd & Hm)%existsb_exists.
  destruct (List.filter (doc_matches (by_id oid)) (coll w name)) as [|d' l] eqn:E.
  - assert (H : In d []) by (rewrite <- E; apply filter_In; auto). destruct H.
  - exists d'. apply find_one_first. by rewrite E.
Qed.

(** An order for a stored listing, written under a fresh identifier: the
    response and the store that is left. *)
Lemma create_order_fresh (new_id oid : ObjectId.t) (payload : Order.t) (w : world) :
  ObjectId.wf new_id →
  ObjectId.parse (Order.listing_id payload) = Some oid →
  stored "listing" oid w = true →
  stored "order" new_id w = false →
  create_order new_id payload w
  = (Return (order_out (new_id, oid, payload)),
     logged (Read "order")
       (appended "order" (order_doc (new_id, oid, payload))
          (logged (Write "order") (logged (Read "listing") w)))).
Proof.
  intros Hwf Hparse Hlisting Hfresh.
  unfold create_order. rewrite Hparse.
  unfold mbind at 1. unfold M_bind at 1.
  destruct (find_one_stored _ _ _ Hlisting) as (d & -> & ->).
  cbv zeta. unfold create_document.
  unfold mbind at 1 2 3 4. unfold M_bind.
  rewrite (insert_one_fresh "order" _ new_id (logged (Read "listing") w)
             (order_data_encodable oid payload) (order_data_no_id oid payload) Hfresh).
  cbn [mret M_ret py_str]. unfold ObjectId_of.
  rewrite (ObjectId_parse_str _ Hwf). cbn [mret M_ret].
  rewrite (find_one_last "order" new_id
             (<["listing_id" := VOid oid]> (Order_model_dump payload))
             (coll w "order"));
    [|exact (coll_appended _ _ (logged (Write "order") (logged (Read "listing") w)))
     |exact Hfresh].
  unfold lift.
  pose proof (OrderOut_init_stored (new_id, oid, payload)) as Hout.
  unfold order_doc in Hout. cbn [fst snd] in Hout. by rewrite Hout.
Qed.

(** X1. An order for a stored listing, under a fresh identifier, is
    written once and shown back: the response carries the new identifier,
    the identifier of the listing in its canonical text, and the buyer and
    status of the payload; the stored document holds the reference to the
    listing as an identifier of the store, not as text; the listings are
    left as they were. *)
Theorem create_order_stores (new_id oid : ObjectId.t) (payload : Order.t) (w : world) :
  ObjectId.wf new_id →
  ObjectId.parse (Order.listing_id payload) = Some oid →
  stored "listing" oid w = true →
  stored "order" new_id w = false →
  ∃ (r : OrderOut.t) (w' : world),
    create_order new_id payload w = (Return r, w')
    ∧ OrderOut.id r = ObjectId.str new_id
    ∧ OrderOut.listing_id r = ObjectId.str oid
    ∧ OrderOut.buyer_name r = Order.buyer_name payload
    ∧ OrderOut.buyer_email r = Order.buyer_email payload
    ∧ OrderOut.status r = Order.status payload
    ∧ coll w' "order" = (coll w "order" ++ [order_doc (new_id, oid, payload)])%list
    ∧ order_doc (new_id, oid, payload) !! "listing_id" = Some (VOid oid)
    ∧ coll w' "listing" = coll w "listing"
    ∧ trace w' = (trace w ++ [Read "listing"; Write "order"; Read "order"])%list.
Proof.
  intros Hwf Hparse Hlisting Hfresh. eexists _, _.
  split; [by apply create_order_fresh|].
  cbn [order_out OrderOut.id OrderOut.listing_id OrderOut.buyer_name
       OrderOut.buyer_email OrderOut.status fst snd].
  repeat (split; [reflexivity|]).
  split; [exact (coll_appended _ _ (logged (Write "order") (logged (Read "listing") w)))|].
  split; [reflexivity|]. split.
  - unfold coll at 1. cbn. by rewrite lookup_insert_ne.
  - cbn. by rewrite <- !app_assoc.
Qed.

(** ** What the handlers do to the store *)

Lemma get_documents_world (name : string) (f : filter_dict) (n : Z) (w w' : world)
    (r : outcome (list dict)) :
  get_documents name f n w = (r, w') → w' = logged (Read name) w.
Proof.
  unfold get_documents, mbind, M_bind, find.
  destruct (filter_valid f); by intros [= _ <-].
Qed.

Lemma Query_world (default lo hi : Z) (given : option Z) (w w' : world) (r : outcome Z) :
  Query default lo hi given w = (r, w') → w' = w.
Proof.
  unfold Query. destruct given as [n|]; [|by intros [= _ <-]].
  destruct (_ && _); by intros [= _ <-].
Qed.

Lemma get_listing_world (listing_id : string) (w w' : world) (r : outcome ListingOut.t) :
  get_listing listing_id w = (r, w') → w' = w ∨ w' = logged (Read "listing") w.
Proof.
  unfold get_listing. destruct (ObjectId.parse listing_id) as [oid|].
  2:{ intros [= _ <-]. by left. }
  unfold mbind, M_bind.
  destruct (find_one _ _ w) as [[doc|e] w1] eqn:Hf;
    apply find_one_world in Hf as ->.
  - destruct (falsy doc); intros [= _ <-]; by right.
  - intros [= _ <-]. by right.
Qed.

Lemma fetched_world {A : Type} (name : string) (f : filter_dict)
    (build : dict → outcome A) (limit : option Z) (w w' : world) (r : outcome (list A)) :
  (n ← Query 50 1 100 limit;
   docs ← get_documents name f n;
   lift (comprehension build docs)) w = (r, w') →
  w' = w ∨ w' = logged (Read name) w.
Proof.
  unfold mbind at 1. unfold M_bind at 1.
  destruct (Query 50 1 100 limit w) as [[n|e] w1] eqn:HQ;
    apply Query_world in HQ as ->.
  2:{ intros [= _ <-]. by left. }
  unfold mbind, M_bind.
  destruct (get_documents _ _ _ _) as [[docs|e] w2] eqn:HG;
    apply get_documents_world in HG as ->; intros [= _ <-]; by right.
Qed.

Lemma list_listings_world (q type tag : option string) (limit : option Z)
    (w w' : world) (r : outcome (list ListingOut.t)) :
  list_listings q type tag limit w = (r, w') →
  w' = w ∨ w' = logged (Read "listing") w.
Proof. unfold list_listings. cbv zeta. apply fetched_world. Qed.

Lemma list_orders_world (buyer_email : option string) (limit : option Z)
    (w w' : world) (r : outcome (list OrderOut.t)) :
  list_orders buyer_email limit w = (r, w') →
  w' = w ∨ w' = logged (Read "order") w.
Proof. unfold list_orders. cbv zeta. apply fetched_world. Qed.

(** X2. The three reading handlers never write: whatever the request and
    whatever the outcome, every collection is as before, and the trace of
    calls on the store gains nothing or one read. *)
Theorem reads_do_not_write (w : world) :
  (∀ (listing_id : string) (r : outcome ListingOut.t) (w' : world),
     get_listing listing_id w = (r, w') →
     collections w' = collections w
     ∧ (trace w' = trace w ∨ trace w' = (trace w ++ [Read "listing"])%list))
  ∧ (∀ (q type tag : option string) (limit : option Z)
       (r : outcome (list ListingOut.t)) (w' : world),
       list_listings q type tag limit w = (r, w') →
       collections w' = collections w
       ∧ (trace w' = trace w ∨ trace w' = (trace w ++ [Read "listing"])%list))
  ∧ (∀ (buyer_email : option string) (limit : option Z)
       (r : outcome (list OrderOut.t)) (w' : world),
       list_orders buyer_email limit w = (r, w') →
       collections w' = collections w
       ∧ (trace w' = trace w ∨ trace w' = (trace w ++ [Read "order"])%list)).
Proof.
  split; [|split].
  - intros listing_id r w' [-> | ->]%get_listing_world; auto.
  - intros q type tag limit r w' [-> | ->]%list_listings_world; auto.
  - intros buyer_email limit r w' [-> | ->]%list_orders_world; auto.
Qed.




(** X4. [create_listing] only ever appends: whatever its outcome, every
    other collection is as before, and the listings are as before or have
    the dumped payload, under the generated identifier, as one more
    document at the end. *)
Theorem create_listing_appends (new_id : ObjectId.t) (payload : Listing.t)
    (w w' : world) (r : outcome ListingOut.t) :
  create_listing new_id payload w = (r, w') →
  (∀ name : string, name ≠ "listing" → coll w' name = coll w name)
  ∧ (coll w' "listing" = coll w "listing"
     ∨ coll w' "listing" = (coll w "listing" ++ [listing_doc (new_id, payload)])%list).
Proof.
  unfold create_listing, create_document.
  unfold mbind at 1 2 3 4. unfold M_bind.
  destruct (insert_one _ _ _ w) as [r1 w1] eqn:Hins.
  apply (insert_one_world _ _ _ _ _ _ (Listing_dump_no_id payload)) in Hins
    as [(e & -> & [-> | ->])|(-> & Henc & ->)].
  1,2: intros [= _ <-]; auto.
  assert (Hsame : Listing_model_dump payload = listing_fields payload).
  { destruct (Listing.demo_url payload) as [u|] eqn:Hdemo.
    { rewrite Listing_dump_not_encodable in Henc
        by (left; rewrite Hdemo; discriminate).
      discriminate. }
    destruct (Listing.thumbnail_url payload) as [u|] eqn:Hthumb.
    { rewrite Listing_dump_not_encodable in Henc
        by (right; rewrite Hthumb; discriminate).
      discriminate. }
    by apply Listing_dump_fields. }
  rewrite Hsame. clear Henc Hsame.
  cbn [mret M_ret py_str]. unfold ObjectId_of.
  set (w1 := appended _ _ _).
  assert (Hother : ∀ name, name ≠ "listing" → coll w1 name = coll w name)
    by (intros name Hn; exact (coll_appended_other _ _ _ (logged _ w) Hn)).
  assert (Hown : coll w1 "listing"
                 = (coll w "listing" ++ [listing_doc (new_id, payload)])%list)
    by exact (coll_appended _ _ (logged _ w)).
  destruct (ObjectId.parse _) as [oid|]; cbn [mret M_ret raise].
  2:{ intros [= _ <-]. auto. }
  destruct (find_one _ _ w1) as [[doc|e] w2] eqn:Hf;
    apply find_one_world in Hf as ->; unfold lift; intros [= _ <-]; auto.
Qed.

(** X5. [create_order] only ever appends, and only for a listing that is
    there: whatever its outcome, every other collection is as before, and
    the orders are as before or have one more document at the end, which
    refers to a listing that was found in the store. *)
Theorem create_order_appends (new_id : ObjectId.t) (payload : Order.t)
    (w w' : world) (r : outcome OrderOut.t) :
  create_order new_id payload w = (r, w') →
  (∀ name : string, name ≠ "order" → coll w' name = coll w name)
  ∧ (coll w' "order" = coll w "order"
     ∨ ∃ oid : ObjectId.t,
         ObjectId.parse (Order.listing_id payload) = Some oid
         ∧ stored "listing" oid w = true
         ∧ coll w' "order"
           = (coll w "order" ++ [order_doc (new_id, oid, payload)])%list).
Proof.
  unfold create_order.
  destruct (ObjectId.parse _) as [oid|] eqn:Hparse.
  2:{ intros [= _ <-]. auto. }
  unfold mbind at 1. unfold M_bind at 1.
  unfold find_one at 1. rewrite filter_valid_by_id.
  destruct (List.filter _ _) as [|d l] eqn:Hfound; cbn [head falsy].
  { intros [= _ <-]. auto. }
  assert (Hstored : stored "listing" oid w = true).
  { unfold stored. apply existsb_exists. exists d.
    apply filter_In. rewrite Hfound. by left. }
  destruct (dict_falsy d).
  { intros [= _ <-]. auto. }
  cbv zeta. unfold create_document.
  unfold mbind at 1 2 3 4. unfold M_bind.
  destruct (insert_one _ _ _ _) as [r1 w1] eqn:Hins.
  apply (insert_one_world _ _ _ _ _ _ (order_data_no_id oid payload)) in Hins
    as [(e & -> & [-> | ->])|(-> & _ & ->)].
  1,2: intros [= _ <-]; auto.
  cbn [mret M_ret py_str]. unfold ObjectId_of.
  set (w1 := appended _ _ _).
  assert (Hother : ∀ name, name ≠ "order" → coll w1 name = coll w name)
    by (intros name Hn;
        exact (coll_appended_other _ _ _ (logged _ (logged _ w)) Hn)).
  assert (Hown : coll w1 "order"
                 = (coll w "order" ++ [order_doc (new_id, oid, payload)])%list)
    by exact (coll_appended _ _ (logged _ (logged _ w))).
  destruct (ObjectId.parse (ObjectId.str new_id)) as [oid'|]; cbn [mret M_ret raise].
  2:{ intros [= _ <-]. eauto 6. }
  destruct (find_one _ _ w1) as [[doc|e] w2] eqn:Hf;
    apply find_one_world in Hf as ->; unfold lift; intros [= _ <-]; eauto 6.
Qed.

(** ** Serialization again *)

(** X6. What [serialize_doc] returns is in serialized form, and serializing
    it again changes nothing: it has no [_id], its [listing_id] is not an
    identifier of the store, and [serialize_doc] maps it to itself. *)
Theorem serialize_doc_idempotent (doc d : dict) :
  serialize_doc (Some doc) = Some d →
  d !! "_id" = None
  ∧ (∀ o : ObjectId.t, d !! "listing_id" ≠ Some (VOid o))
  ∧ serialize_doc (Some d) = Some d.
Proof.
  unfold serialize_doc at 1.
  destruct (dict_falsy doc) eqn:Hfalsy.
  { intros [= <-].
    assert (Hempty : doc = ∅).
    { unfold dict_falsy in Hfalsy.
      destruct (map_to_list doc) eqn:E; [|discriminate].
      by apply map_to_list_empty_iff. }
    subst doc. repeat split; try done. }
  set (d1 := match doc !! "_id" with
             | Some v => <["id" := VStr (py_str v)]> (delete "_id" doc)
             | None => doc
             end).
  assert (H1 : d1 !! "_id" = None).
  { unfold d1. destruct (doc !! "_id") eqn:E; [|done].
    rewrite lookup_insert_ne by done. apply lookup_delete_eq. }
  assert (Hfin : ∀ d2 : dict,
            d2 !! "_id" = None →
            (∀ o, d2 !! "listing_id" ≠ Some (VOid o)) →
            serialize_doc (Some d2) = Some d2).
  { intros d2 Hid Hl. unfold serialize_doc.
    destruct (dict_falsy d2); [done|]. rewrite Hid.
    destruct (d2 !! "listing_id") as [[| | | |o|u]|]; try done.
    by destruct (Hl o). }
  destruct (d1 !! "listing_id") as [[| | | |o|u]|] eqn:Hl; intros [= <-].
  all: try (split; [exact H1|];
            assert (Hno : ∀ o, d1 !! "listing_id" ≠ Some (VOid o))
              by (intros o; rewrite Hl; discriminate);
            split; [exact Hno|by apply Hfin]).
  assert (Hno : ∀ o', (<["listing_id" := VStr (ObjectId.str o)]> d1 : dict)
                        !! "listing_id" ≠ Some (VOid o'))
    by (intros o'; rewrite lookup_insert_eq; discriminate).
  split; [by rewrite lookup_insert_ne|]. split; [exact Hno|].
  apply Hfin; [by rewrite lookup_insert_ne|exact Hno].
Qed.

(** ** Orders of one buyer *)

Lemma list_listings_pipeline (q type tag : option string) (limit : option Z) :
  list_listings q type tag limit
  = (n ← Query 50 1 100 limit;
     docs ← get_documents "listing" (listings_filter q type tag) n;
     lift (comprehension (λ d, ListingOut_init (serialize_doc (Some d))) docs)).
Proof. reflexivity. Qed.

Lemma list_orders_pipeline (buyer_email : option string) (limit : option Z) :
  list_orders buyer_email limit
  = (n ← Query 50 1 100 limit;
     docs ← get_documents "order" (orders_filter buyer_email) n;
     lift (comprehension (λ d, OrderOut_init (serialize_doc (Some d))) docs)).
Proof. reflexivity. Qed.


Lemma fetched_sound {A : Type} (name : string) (f : filter_dict)
    (build : dict → outcome A) (limit : option Z) (rs : list A) (w w' : world) (r : A) :
  (n ← Query 50 1 100 limit;
   docs ← get_documents name f n;
   lift (comprehension build docs)) w = (Return rs, w') →
  In r rs →
  ∃ doc : dict, In doc (coll w name) ∧ doc_matches f doc = true ∧ build doc = Return r.
Proof.
  unfold mbind at 1. unfold M_bind at 1.
  destruct (Query 50 1 100 limit w) as [[n|e] w1] eqn:HQ; [|discriminate].
  apply Query_Return in HQ as (-> & _ & _).
  unfold mbind, M_bind.
  destruct (get_documents _ _ _ _) as [[docs|e] w2] eqn:HG; [|discriminate].
  apply get_documents_Return in HG as (_ & -> & _).
  unfold lift. intros [= Hrs%comprehension_Forall2 _] Hr.
  destruct (Forall2_In_r _ _ _ _ Hrs Hr) as (doc & Hdoc & Hinit).
  apply In_take, (Permutation_in _ (arrange_perm order _ _)), filter_In in Hdoc
    as [Hdoc Hmatch].
  eauto.
Qed.

Lemma OrderOut_init_buyer_email (d : dict) (r : OrderOut.t) :
  OrderOut_init (Some d) = Return r →
  d !! "buyer_email" = Some (VStr (OrderOut.buyer_email r)).
Proof.
  unfold OrderOut_init, mbind, outcome_bind.
  destruct (arg_str d "id"); [|discriminate].
  destruct (arg_str d "listing_id"); [|discriminate].
  destruct (arg_str d "buyer_name"); [|discriminate].
  destruct (arg_str d "buyer_email") eqn:H; [|discriminate].
  destruct (arg_str d "status"); [|discriminate].
  intros [= <-]. cbn. by apply arg_str_Return.
Qed.

(** X11. For every buyer address X that is not empty, [list_orders] with
    [buyer_email = X] returns only orders whose [buyer_email] is X itself,
    whatever documents the collection holds. *)
Theorem list_orders_buyer_exact (X : string) (limit : option Z)
    (w w' : world) (rs : list OrderOut.t) (r : OrderOut.t) :
  X ≠ "" →
  list_orders (Some X) limit w = (Return rs, w') →
  In r rs →
  OrderOut.buyer_email r = X.
Proof.
  intros HX Hcall Hr. rewrite list_orders_pipeline in Hcall.
  destruct (fetched_sound _ _ _ _ _ _ _ _ Hcall Hr) as (doc & _ & Hmatch & Hbuild).
  assert (Hf : orders_filter (Some X) !! "buyer_email" = Some (Cond (CEq (VStr X)))).
  { unfold orders_filter. destruct X; [done|]. apply lookup_insert_eq. }
  pose proof (doc_matches_lookup _ _ _ _ Hmatch Hf) as Hcond.
  destruct (serialize_doc_other doc) as (d & Hd & Hsame).
  rewrite Hd in Hbuild. apply OrderOut_init_buyer_email in Hbuild.
  rewrite Hsame in Hbuild by done.
  cbn [entry_matches cond_matches] in Hcond. rewrite Hbuild in Hcond.
  cbn in Hcond. by apply String.eqb_eq.
Qed.

(** ** The routes with a body, end to end *)

(** X12. An order posted without [status] is stored and shown as
    "completed": with the required fields given, the address accepted, the
    listing stored and the identifier fresh, the route returns the order
    with the given status, or "completed" when none is given. *)
Theorem order_route_default_status (new_id oid : ObjectId.t) (body : OrderBody.t)
    (lid bname bmail mail : string) (w : world) :
  OrderBody.listing_id body = Some lid →
  OrderBody.buyer_name body = Some bname →
  OrderBody.buyer_email body = Some bmail →
  email_str bmail = Some mail →
  ObjectId.wf new_id →
  ObjectId.parse lid = Some oid →
  stored "listing" oid w = true →
  stored "order" new_id w = false →
  ∃ (r : OrderOut.t) (w' : world),
    POST_api_orders new_id body w = (Return r, w')
    ∧ OrderOut.status r = default "completed" (OrderBody.status body)
    ∧ OrderOut.id r = ObjectId.str new_id
    ∧ OrderOut.listing_id r = ObjectId.str oid
    ∧ OrderOut.buyer_name r = bname
    ∧ OrderOut.buyer_email r = mail.
Proof.
  intros Hlid Hname Hmail Hcheck Hwf Hparse Hlisting Hfresh.
  unfold POST_api_orders, Order_validate.
  rewrite Hlid, Hname, Hmail. cbn [required mbind outcome_bind].
  unfold checked. rewrite Hcheck. cbn [mbind outcome_bind mret outcome_ret].
  unfold mbind, M_bind, lift.
  pose proof (create_order_fresh new_id oid
                {| Order.listing_id := lid; Order.buyer_name := bname;
                   Order.buyer_email := mail;
                   Order.status := default "completed" (OrderBody.status body) |}
                w Hwf Hparse Hlisting Hfresh) as Hcreate.
  unfold mret, outcome_ret. cbv beta iota. rewrite Hcreate.
  eexists _, _. split; [reflexivity|]. by cbn.
Qed.

(** X13. A listing posted with only the required fields is stored and
    shown with an empty list of tags and no URLs: with the required fields
    given, the price not below zero, the address accepted and the
    identifier fresh, the route returns the listing as given, with the
    address in its accepted form, [tags = []], and both URLs [None]. *)
Theorem listing_route_defaults (new_id : ObjectId.t) (body : ListingBody.t)
    (title type description sname smail mail : string) (price : spec_float) (w : world) :
  ListingBody.title body = Some title →
  ListingBody.type body = Some type →
  ListingBody.description body = Some description →
  ListingBody.price body = Some price →
  SFleb zero price = true →
  ListingBody.seller_name body = Some sname →
  ListingBody.seller_email body = Some smail →
  email_str smail = Some mail →
  ListingBody.tags body = None →
  ListingBody.demo_url body = None →
  ListingBody.thumbnail_url body = None →
  ObjectId.wf new_id →
  stored "listing" new_id w = false →
  ∃ w' : world,
    POST_api_listings new_id body w
    = (Return {| ListingOut.id := ObjectId.str new_id;
                 ListingOut.title := title;
                 ListingOut.type := type;
                 ListingOut.description := description;
                 ListingOut.price := price;
                 ListingOut.tags := [];
                 ListingOut.seller_name := sname;
                 ListingOut.seller_email := mail;
                 ListingOut.demo_url := None;
                 ListingOut.thumbnail_url := None |}, w').
Proof.
  intros Ht Hty Hd Hp Hge Hsn Hse Hcheck Htags Hdemo Hthumb Hwf Hfresh.
  unfold POST_api_listings, Listing_validate.
  rewrite Ht, Hty, Hd, Hp, Hsn, Hse, Htags, Hdemo, Hthumb.
  cbn [required mbind outcome_bind]. unfold ge. rewrite Hge.
  cbn [mbind outcome_bind]. unfold checked. rewrite Hcheck.
  cbn [mbind outcome_bind checked_opt mret outcome_ret default].
  unfold mbind, M_bind, lift, mret, outcome_ret. cbv beta iota.
  rewrite create_listing_fresh by done.
  eexists. reflexivity.
Qed.

(** ** The diagnostic endpoint *)

(** X14. Whatever the state of the store, the diagnostic response reports
    the backend as running and lists at most 10 collections; it reports
    "Connected" exactly when a store is configured and its collections
    could be listed, and then the collections are the first 10 names. *)
Theorem test_database_report (db : option Database.t) (DATABASE_URL : option string) :
  test_database db DATABASE_URL !! "backend" = Some (VStr "✅ Running")
  ∧ (∃ names : list string,
       test_database db DATABASE_URL !! "collections" = Some (VList (map VStr names))
       ∧ (length names ≤ 10)%nat)
  ∧ (test_database db DATABASE_URL !! "connection_status" = Some (VStr "Connected")
     ↔ ∃ (d : Database.t) (names : list string),
         db = Some d ∧ Database.list_collection_names d = inr names)
  ∧ (∀ (d : Database.t) (names : list string),
       db = Some d → Database.list_collection_names d = inr names →
       test_database db DATABASE_URL !! "collections"
         = Some (VList (map VStr (firstn 10 names)))
       ∧ test_database db DATABASE_URL !! "database"
         = Some (VStr "✅ Connected & Working")
       ∧ test_database db DATABASE_URL !! "database_name"
         = Some (VStr (Database.name d))).
Proof.
  unfold test_database.
  destruct db as [d|]; [destruct (Database.list_collection_names d) as [e|names] eqn:E|].
  - split; [reflexivity|]. split; [exists []; split; [reflexivity|cbn; lia]|]. split.
    + split; [discriminate|]. intros (d' & names & [= <-] & H). congruence.
    + intros d' names [= <-] H. congruence.
  - split; [reflexivity|]. split.
    { exists (firstn 10 names). split; [reflexivity|].
      rewrite length_take. lia. }
    split.
    + split; [eauto|reflexivity].
    + intros d' names' [= <-] H. rewrite E in H. injection H as <-.
      repeat split.
  - split; [reflexivity|]. split; [exists []; split; [reflexivity|cbn; lia]|]. split.
    + split; [discriminate|]. by intros (d' & names & [=] & _).
    + by intros d' names [=].
Qed.

(** X15. When listing the collections raises, the diagnostic response
    keeps what was filled in before: the name of the database and whether
    [DATABASE_URL] is set; it reports "Not Connected" with no collections,
    and its [database] field is the error mark followed by the first 80
    characters of the exception's text, all of it when it has no more. *)
Theorem test_database_error (d : Database.t) (DATABASE_URL : option string) (e : list N) :
  Database.list_collection_names d = inl e →
  ∃ shown : list N,
    test_database (Some d) DATABASE_URL !! "database"
      = Some (VStr ("❌ Error: " ++ utf8 shown))
    ∧ shown = firstn 80 e
    ∧ (length shown ≤ 80)%nat
    ∧ ((length e ≤ 80)%nat → shown = e)
    ∧ test_database (Some d) DATABASE_URL !! "database_name"
      = Some (VStr (Database.name d))
    ∧ test_database (Some d) DATABASE_URL !! "database_url"
      = Some (VStr match truthy DATABASE_URL with
                   | Some _ => "✅ Set"
                   | None => "❌ Not Set"
                   end)
    ∧ test_database (Some d) DATABASE_URL !! "connection_status"
      = Some (VStr "Not Connected")
    ∧ test_database (Some d) DATABASE_URL !! "collections" = Some (VList []).
Proof.
  intros E. unfold test_database. rewrite E.
  exists (firstn 80 e). split; [reflexivity|]. split; [reflexivity|].
  split; [rewrite length_take; lia|].
  split; [intros H; by apply firstn_all2|].
  repeat split.
Qed.

(** ** Fetching a stored listing *)

Lemma listing_doc_build (e : ObjectId.t * Listing.t) :
  ListingOut_init (serialize_doc (Some (listing_doc e))) = Return (listing_out e).
Proof. destruct e as [oid p]. apply ListingOut_init_stored. Qed.


(** ** Filters, item by item *)

Lemma doc_matches_empty (d : dict) : doc_matches ∅ d = true.
Proof. apply bool_decide_eq_true_2, map_Forall_empty. Qed.

Lemma doc_matches_insert (f : filter_dict) (k : string) (e : entry) (d : dict) :
  f !! k = None →
  doc_matches (<[k := e]> f) d = entry_matches k e d && doc_matches f d.
Proof.
  intros Hk. unfold doc_matches.
  destruct (entry_matches k e d) eqn:He; cbn.
  - apply bool_decide_ext. rewrite map_Forall_insert by done.
    split; [by intros [_ ?]|by split].
  - apply bool_decide_eq_false_2. rewrite map_Forall_insert by done.
    intros [H _]. congruence.
Qed.

Lemma filter_valid_empty : filter_valid ∅ = true.
Proof. apply bool_decide_eq_true_2, map_Forall_empty. Qed.

Lemma filter_valid_insert (f : filter_dict) (k : string) (e : entry) :
  f !! k = None →
  filter_valid (<[k := e]> f) = entry_valid e && filter_valid f.
Proof.
  intros Hk. unfold filter_valid.
  destruct (entry_valid e) eqn:He; cbn.
  - apply bool_decide_ext. rewrite map_Forall_insert by done.
    split; [by intros [_ ?]|by split].
  - apply bool_decide_eq_false_2. rewrite map_Forall_insert by done.
    intros [H _]. congruence.
Qed.

Lemma conds_valid_singleton (k : string) (c : cond) :
  bool_decide (map_Forall (λ (_ : string) c, cond_valid c = true) {[k := c]})
  = cond_valid c.
Proof.
  destruct (cond_valid c) eqn:E.
  - apply bool_decide_eq_true_2. by apply map_Forall_singleton.
  - apply bool_decide_eq_false_2. rewrite map_Forall_singleton. congruence.
Qed.

(** The pipeline of the two listing handlers on a collection whose
    documents are all of one known making: the responses for the first
    [limit] of the matching documents, in the store's order of them. *)
Lemma fetched_arranged {E A : Type} (name : string) (f : filter_dict)
    (build : dict → outcome A) (mk : E → dict) (out : E → A) (sel : E → bool)
    (entries : list E) (limit : option Z) (w : world) :
  limit_ok limit →
  filter_valid f = true →
  coll w name = map mk entries →
  (∀ e, doc_matches f (mk e) = sel e) →
  (∀ e, build (mk e) = Return (out e)) →
  ∃ arranged : list E,
    Permutation arranged (List.filter sel entries)
    ∧ (n ← Query 50 1 100 limit;
       docs ← get_documents name f n;
       lift (comprehension build docs)) w
      = (Return (map out (firstn (limit_of limit) arranged)),
         logged (Read name) w).
Proof.
  intros Hlimit Hvalid Hcoll Hsel Hbuild.
  assert (Hfilter : List.filter (doc_matches f) (map mk entries)
                    = map mk (List.filter sel entries)).
  { clear -Hsel. induction entries as [|e l IH]; cbn; [done|].
    rewrite Hsel. destruct (sel e); cbn; by rewrite IH. }
  destruct (Permutation_map_inv mk (List.filter sel entries)
              (arrange_perm order f (map mk (List.filter sel entries))))
    as (arranged & Harr & Hperm).
  exists arranged. split; [by symmetry|].
  unfold mbind at 1. unfold M_bind at 1.
  assert (HQ : Query 50 1 100 limit w = (Return (default 50%Z limit), w)).
  { unfold Query. destruct limit as [n|]; [|done]. cbn in Hlimit.
    replace ((1 <=? n)%Z && (n <=? 100)%Z) with true; [done|].
    symmetry. apply andb_true_iff. split; apply Z.leb_le; lia. }
  rewrite HQ.
  unfold mbind, M_bind, get_documents, mbind, M_bind, find.
  rewrite Hvalid, Hcoll. cbn [mret M_ret]. unfold lift. f_equal.
  fold (limit_of limit). rewrite Hfilter, Harr.
  rewrite <- List.firstn_map. generalize (limit_of limit) as n.
  clear -Hbuild. intros n. revert n.
  induction arranged as [|e l IH]; intros [|n]; cbn; try done.
  by rewrite Hbuild, IH.
Qed.

Lemma listing_doc_type (t : string) (e : ObjectId.t * Listing.t) :
  entry_matches "type" (Cond (CEq (VStr t))) (listing_doc e)
  = String.eqb (Listing.type e.2) t.
Proof. destruct e as [oid p]. reflexivity. Qed.

Lemma listing_doc_tag (g : string) (e : ObjectId.t * Listing.t) :
  entry_matches "tags" (Cond (CIn [VStr g])) (listing_doc e)
  = existsb (λ s, String.eqb s g) (Listing.tags e.2).
Proof.
  destruct e as [oid p]. cbn [entry_matches cond_matches existsb snd].
  change (listing_doc (oid, p) !! "tags")
    with (Some (VList (map VStr (Listing.tags p)))).
  cbn [eq_matches value_eqb]. rewrite orb_false_l, orb_false_r.
  by apply existsb_map_VStr.
Qed.

Lemma listing_doc_q (x : string) (e : ObjectId.t * Listing.t) :
  entry_matches "$or"
    (OrOf [ {["title" := CRegex x true]};
            {["description" := CRegex x true]};
            {["tags" := CRegex x true]} ]) (listing_doc e)
  = match regex x true with
    | Some found =>
        found (Listing.title e.2)
        || found (Listing.description e.2)
        || existsb found (Listing.tags e.2)
    | None => false
    end.
Proof.
  destruct e as [oid p]. cbn [entry_matches existsb snd].
  rewrite !conds_match_singleton, orb_false_r, orb_assoc.
  cbn [cond_matches]. unfold regex_matches.
  destruct (regex x true) as [found|]; [|done].
  change (listing_doc (oid, p) !! "title") with (Some (VStr (Listing.title p))).
  change (listing_doc (oid, p) !! "description")
    with (Some (VStr (Listing.description p))).
  change (listing_doc (oid, p) !! "tags")
    with (Some (VList (map VStr (Listing.tags p)))).
  f_equal. by apply existsb_map_VStr.
Qed.

Lemma listings_filter_valid (q type tag : option string) :
  (∀ x : string, truthy q = Some x → regex x true ≠ None) →
  filter_valid (listings_filter q type tag) = true.
Proof.
  intros Hq. unfold listings_filter.
  destruct (truthy q) as [x|], (truthy tag) as [g|], (truthy type) as [t|];
    cbv zeta;
    rewrite ?filter_valid_insert by reflexivity;
    rewrite ?filter_valid_empty; cbn [entry_valid forallb andb];
    rewrite ?conds_valid_singleton; cbn [cond_valid andb];
    try reflexivity.
  all: specialize (Hq x eq_refl); by destruct (regex x true).
Qed.

Lemma listings_filter_selected (q type tag : option string) (e : ObjectId.t * Listing.t) :
  doc_matches (listings_filter q type tag) (listing_doc e) = selected q type tag e.2.
Proof.
  unfold selected, listings_filter.
  destruct (truthy q) as [x|], (truthy tag) as [g|], (truthy type) as [t|];
    cbv zeta;
    rewrite ?doc_matches_insert by reflexivity;
    rewrite ?doc_matches_empty, ?listing_doc_type, ?listing_doc_tag, ?listing_doc_q;
    rewrite ?andb_true_r, ?andb_true_l; try reflexivity.
  all: try (by rewrite andb_comm).
  rewrite (andb_comm (existsb _ _) (String.eqb _ _)). by rewrite andb_comm.
Qed.

Lemma orders_filter_valid (buyer_email : option string) :
  filter_valid (orders_filter buyer_email) = true.
Proof.
  unfold orders_filter. destruct (truthy buyer_email);
    rewrite ?filter_valid_insert by reflexivity;
    by rewrite ?filter_valid_empty.
Qed.

Lemma orders_filter_wanted (buyer_email : option string)
    (e : ObjectId.t * ObjectId.t * Order.t) :
  doc_matches (orders_filter buyer_email) (order_doc e) = wanted buyer_email e.2.
Proof.
  unfold orders_filter, wanted. destruct e as [[id lid] p].
  destruct (truthy buyer_email) as [x|];
    rewrite ?doc_matches_insert by reflexivity;
    rewrite ?doc_matches_empty; [|done].
  by rewrite andb_true_r.
Qed.

Lemma take_all_map {A B : Type} (out : A → B) (n : nat) (l : list A) :
  (length l ≤ n)%nat → map out (firstn n l) = map out l.
Proof. intros H. by rewrite firstn_all2. Qed.

(** ** Listing a store written through the handlers *)

(** X7. On a collection of stored listings, [list_listings] with a limit
    in 1..100 (or none, which is 50) and a pattern that is a regular
    expression returns, after one read of the store, the first [limit] of
    the stored listings that pass every filter asked for (type equal, tag
    among the tags, pattern found in title, description or a tag), taken
    in the order in which the store hands them out, which is not
    specified: the result is cut from some arrangement of exactly these
    listings. *)
Theorem list_listings_exact (q type tag : option string) (limit : option Z)
    (entries : list (ObjectId.t * Listing.t)) (w : world) :
  limit_ok limit →
  (∀ x : string, truthy q = Some x → regex x true ≠ None) →
  coll w "listing" = map listing_doc entries →
  ∃ arranged : list (ObjectId.t * Listing.t),
    Permutation arranged (List.filter (λ e, selected q type tag e.2) entries)
    ∧ list_listings q type tag limit w
      = (Return (map listing_out (firstn (limit_of limit) arranged)),
         logged (Read "listing") w).
Proof.
  intros Hlimit Hq Hcoll. rewrite list_listings_pipeline.
  apply (fetched_arranged "listing" _ _ listing_doc listing_out
           (λ e, selected q type tag e.2) entries);
    [exact Hlimit|by apply listings_filter_valid|exact Hcoll
    |apply listings_filter_selected|apply listing_doc_build].
Qed.

(** X8. On a collection of orders written by [create_order], [list_orders]
    with a limit in 1..100 (or none, which is 50) returns, after one read
    of the store, the first [limit] of the stored orders of the buyer asked
    for, or of all of them when no buyer or an empty one is given, taken in
    the order in which the store hands them out, which is not specified. *)
Theorem list_orders_exact (buyer_email : option string) (limit : option Z)
    (entries : list (ObjectId.t * ObjectId.t * Order.t)) (w : world) :
  limit_ok limit →
  coll w "order" = map order_doc entries →
  ∃ arranged : list (ObjectId.t * ObjectId.t * Order.t),
    Permutation arranged (List.filter (λ e, wanted buyer_email e.2) entries)
    ∧ list_orders buyer_email limit w
      = (Return (map order_out (firstn (limit_of limit) arranged)),
         logged (Read "order") w).
Proof.
  intros Hlimit Hcoll. rewrite list_orders_pipeline.
  apply (fetched_arranged "order" _ _ order_doc order_out
           (λ e, wanted buyer_email e.2) entries);
    [exact Hlimit|apply orders_filter_valid|exact Hcoll
    |apply orders_filter_wanted|apply OrderOut_init_stored].
Qed.

(** X9. A listing that was just created is listed: after [create_listing]
    of a payload without URLs, under a fresh identifier, on a collection
    of stored listings, a [list_listings] whose filters the new listing
    passes, and whose limit the listings that pass them do not exceed,
    returns the new listing among exactly these listings, in whatever
    order. *)
Theorem created_listing_is_listed (new_id : ObjectId.t) (payload : Listing.t)
    (q type tag : option string) (limit : option Z)
    (entries : list (ObjectId.t * Listing.t)) (w : world) :
  Listing.demo_url payload = None →
  Listing.thumbnail_url payload = None →
  ObjectId.wf new_id →
  stored "listing" new_id w = false →
  coll w "listing" = map listing_doc entries →
  limit_ok limit →
  (∀ x : string, truthy q = Some x → regex x true ≠ None) →
  selected q type tag payload = true →
  (length (List.filter (λ e, selected q type tag e.2) entries) < limit_of limit)%nat →
  ∃ (w1 : world) (rs : list ListingOut.t),
    create_listing new_id payload w = (Return (listing_out (new_id, payload)), w1)
    ∧ fst (list_listings q type tag limit w1) = Return rs
    ∧ In (listing_out (new_id, payload)) rs
    ∧ Permutation rs
        (map listing_out
           (List.filter (λ e, selected q type tag e.2) entries ++ [(new_id, payload)])).
Proof.
  intros Hdemo Hthumb Hwf Hfresh Hcoll Hlimit Hq Hsel Hroom.
  rewrite (create_listing_fresh _ _ _ Hdemo Hthumb Hwf Hfresh).
  set (w1 := logged _ _).
  assert (Hcoll1 : coll w1 "listing" = map listing_doc (entries ++ [(new_id, payload)])).
  { rewrite map_app, <- Hcoll.
    exact (coll_appended _ _ (logged (Write "listing") w)). }
  rewrite list_listings_pipeline.
  destruct (fetched_arranged "listing" (listings_filter q type tag)
              (λ d, ListingOut_init (serialize_doc (Some d)))
              listing_doc listing_out
              (λ e, selected q type tag e.2) (entries ++ [(new_id, payload)])
              limit w1 Hlimit (listings_filter_valid _ _ _ Hq) Hcoll1
              (listings_filter_selected _ _ _) listing_doc_build)
    as (arranged & Hperm & Hcall).
  rewrite List.filter_app in Hperm. cbn [List.filter snd] in Hperm.
  rewrite Hsel in Hperm.
  assert (Hall : map listing_out (firstn (limit_of limit) arranged)
                 = map listing_out arranged).
  { apply take_all_map. rewrite (Permutation_length Hperm), length_app. cbn. lia. }
  exists w1, (map listing_out arranged). rewrite Hcall, Hall.
  split; [reflexivity|]. split; [reflexivity|].
  assert (Hrs : Permutation (map listing_out arranged)
                  (map listing_out
                     (List.filter (λ e, selected q type tag e.2) entries
                      ++ [(new_id, payload)])))
    by (by apply Permutation_map).
  split; [|exact Hrs].
  apply (Permutation_in _ (Permutation_sym Hrs)).
  rewrite map_app. apply in_or_app. right. by left.
Qed.

(** X10. An order that was just placed is listed: after a successful
    [create_order] on a collection of orders written by [create_order], a
    [list_orders] for the buyer of the new order (or for no buyer), whose
    limit the wanted orders do not exceed, returns the new order among
    exactly the wanted orders, in whatever order. *)
Theorem created_order_is_listed (new_id oid : ObjectId.t) (payload : Order.t)
    (buyer_email : option string) (limit : option Z)
    (entries : list (ObjectId.t * ObjectId.t * Order.t)) (w : world) :
  ObjectId.wf new_id →
  ObjectId.parse (Order.listing_id payload) = Some oid →
  stored "listing" oid w = true →
  stored "order" new_id w = false →
  coll w "order" = map order_doc entries →
  limit_ok limit →
  wanted buyer_email payload = true →
  (length (List.filter (λ e, wanted buyer_email e.2) entries) < limit_of limit)%nat →
  ∃ (w1 : world) (rs : list OrderOut.t),
    create_order new_id payload w = (Return (order_out (new_id, oid, payload)), w1)
    ∧ fst (list_orders buyer_email limit w1) = Return rs
    ∧ In (order_out (new_id, oid, payload)) rs
    ∧ Permutation rs
        (map order_out
           (List.filter (λ e, wanted buyer_email e.2) entries
            ++ [(new_id, oid, payload)])).
Proof.
  intros Hwf Hparse Hlisting Hfresh Hcoll Hlimit Hsel Hroom.
  rewrite (create_order_fresh _ _ _ _ Hwf Hparse Hlisting Hfresh).
  set (w1 := logged _ _).
  assert (Hcoll1 : coll w1 "order" = map order_doc (entries ++ [(new_id, oid, payload)])).
  { rewrite map_app, <- Hcoll.
    exact (coll_appended _ _ (logged (Write "order") (logged (Read "listing") w))). }
  rewrite list_orders_pipeline.
  destruct (fetched_arranged "order" (orders_filter buyer_email)
              (λ d, OrderOut_init (serialize_doc (Some d)))
              order_doc order_out
              (λ e, wanted buyer_email e.2) (entries ++ [(new_id, oid, payload)])
              limit w1 Hlimit (orders_filter_valid _) Hcoll1
              (orders_filter_wanted _) OrderOut_init_stored)
    as (arranged & Hperm & Hcall).
  rewrite List.filter_app in Hperm. cbn [List.filter snd] in Hperm.
  rewrite Hsel in Hperm.
  assert (Hall : map order_out (firstn (limit_of limit) arranged)
                 = map order_out arranged).
  { apply take_all_map. rewrite (Permutation_length Hperm), length_app. cbn. lia. }
  exists w1, (map order_out arranged). rewrite Hcall, Hall.
  split; [reflexivity|]. split; [reflexivity|].
  assert (Hrs : Permutation (map order_out arranged)
                  (map order_out
                     (List.filter (λ e, wanted buyer_email e.2) entries
                      ++ [(new_id, oid, payload)])))
    by (by apply Permutation_map).
  split; [|exact Hrs].
  apply (Permutation_in _ (Permutation_sym Hrs)).
  rewrite map_app. apply in_or_app. right. by left.
Qed.

Lemma listing_doc_by_id (oid : ObjectId.t) (e : ObjectId.t * Listing.t) :
  doc_matches (by_id oid) (listing_doc e) = ObjectId.eqb e.1 oid.
Proof.
  destruct e as [o p]. rewrite doc_matches_by_id. unfold listing_doc.
  by rewrite lookup_insert_eq.
Qed.

Lemma filter_by_id_first (oid : ObjectId.t) (p : Listing.t)
    (before after : list (ObjectId.t * Listing.t)) :
  Forall (λ e, e.1 ≠ oid) before →
  head (List.filter (doc_matches (by_id oid))
          (map listing_doc (before ++ (oid, p) :: after)))
  = Some (listing_doc (oid, p)).
Proof.
  induction 1 as [|e l He _ IH]; cbn [app map List.filter].
  - rewrite listing_doc_by_id. cbn [fst].
    by rewrite (proj2 (ObjectId_eqb_eq oid oid) eq_refl).
  - rewrite listing_doc_by_id.
    destruct (ObjectId.eqb e.1 oid) eqn:E; [|exact IH].
    by apply ObjectId_eqb_eq in E.
Qed.

(** X16. Every stored listing can be fetched: on a collection written by
    [create_listing], [get_listing] on any text that reads as the
    identifier of a stored listing returns that listing (the first one
    stored under the identifier), with the identifier in its canonical
    text, whatever the letter case of the text given. *)
Theorem get_listing_finds_stored (listing_id : string) (oid : ObjectId.t) (p : Listing.t)
    (before after : list (ObjectId.t * Listing.t)) (w : world) :
  ObjectId.parse listing_id = Some oid →
  coll w "listing" = map listing_doc (before ++ (oid, p) :: after) →
  Forall (λ e, e.1 ≠ oid) before →
  get_listing listing_id w
  = (Return (ListingOut_of (ObjectId.str oid) p), logged (Read "listing") w).
Proof.
  intros Hparse Hcoll Hfirst. unfold get_listing. rewrite Hparse.
  unfold mbind, M_bind.
  pose proof (filter_by_id_first oid p before after Hfirst) as Hhead.
  rewrite <- Hcoll in Hhead.
  destruct (find_one_first _ _ _ _ Hhead) as [-> Hfalsy].
  rewrite Hfalsy. unfold lift.
  by rewrite (listing_doc_build (oid, p)).
Qed.

(** X17. A malformed [listing_id] is not a matter of the schema: a body
    with all required fields and an accepted address passes validation
    whatever text its [listing_id] is, and when that text does not read as
    an identifier the route fails with 400, not with a validation error,
    and without a call on the store. *)
Theorem order_route_malformed_id (new_id : ObjectId.t) (body : OrderBody.t)
    (lid bname bmail mail : string) (w : world) :
  OrderBody.listing_id body = Some lid →
  OrderBody.buyer_name body = Some bname →
  OrderBody.buyer_email body = Some bmail →
  email_str bmail = Some mail →
  ObjectId.parse lid = None →
  (∃ payload : Order.t,
     Order_validate body = Return payload ∧ Order.listing_id payload = lid)
  ∧ POST_api_orders new_id body w
    = (Raise (HTTPException 400 "Invalid listing id"), w).
Proof.
  intros Hlid Hname Hmail Hcheck Hparse.
  assert (Hval : Order_validate body
                 = Return {| Order.listing_id := lid; Order.buyer_name := bname;
                             Order.buyer_email := mail;
                             Order.status := default "completed" (OrderBody.status body) |}).
  { unfold Order_validate. rewrite Hlid, Hname, Hmail.
    cbn [required mbind outcome_bind]. unfold checked. by rewrite Hcheck. }
  split; [eexists; split; [exact Hval|reflexivity]|].
  unfold POST_api_orders, mbind, M_bind, lift. rewrite Hval.
  unfold create_order. cbn [Order.listing_id]. by rewrite Hparse.
Qed.

End Marketplace.


(** ** The theorems at work on the sample data *)


Lemma create_order_malformed_id_witness :
  ObjectId.parse (Order.listing_id malformed_order) = None
  ∧ create_order no_text Regex.engine other_id malformed_order sample_world
    = (Raise (HTTPException 400 "Invalid listing id"), sample_world).
Proof.
  split; [vm_compute; reflexivity|].
  apply (create_order_malformed_id no_text Regex.engine other_id malformed_order
           sample_world).
  vm_compute; reflexivity.
Defined.

Lemma create_order_unknown_listing_witness :
  ObjectId.parse (Order.listing_id sample_order) = Some other_id
  ∧ stored Regex.engine "listing" other_id sample_world = false
  ∧ ∃ w' : world,
      create_order no_text Regex.engine sample_id sample_order sample_world
      = (Raise (HTTPException 404 "Listing not found"), w')
      ∧ collections w' = collections sample_world
      ∧ trace w' = (trace sample_world ++ [Read "listing"])%list.
Proof.
  split; [vm_compute; reflexivity|]. split; [vm_compute; reflexivity|].
  apply (create_order_unknown_listing no_text Regex.engine sample_id other_id
           sample_order sample_world).
  - vm_compute; reflexivity.
  - vm_compute; reflexivity.
Defined.

Lemma serialize_doc_fields_witness :
  sample_doc !! "_id" = Some (VOid sample_id)
  ∧ ∃ d : dict,
      serialize_doc no_text (Some sample_doc) = Some d
      ∧ d !! "_id" = None
      ∧ d !! "id" = Some (VStr "000000000000000000000001")
      ∧ d !! "title" = Some (VStr "Bot").
Proof.
  split; [reflexivity|].
  destruct (serialize_doc_fields no_text sample_doc (VOid sample_id) eq_refl)
    as (d & Hd & Hno & Hid & _ & _ & Hother).
  exists d. split; [exact Hd|]. split; [exact Hno|]. split; [exact Hid|].
  rewrite (Hother "title") by discriminate. reflexivity.
Defined.

Lemma get_listing_outcomes_witness :
  get_listing no_text Regex.engine "not-an-id" sample_world
  = (Raise (HTTPException 400 "Invalid listing id"), sample_world)
  ∧ get_listing no_text Regex.engine "000000000000000000000002" sample_world
    = (Raise (HTTPException 404 "Listing not found"), logged (Read "listing") sample_world)
  ∧ get_listing no_text Regex.engine "000000000000000000000001" sample_world
    = (Return (ListingOut_of "000000000000000000000001" sample_listing),
       logged (Read "listing") sample_world)
  ∧ ∃ (r : ListingOut.t) (w : world),
      create_listing no_text Regex.engine other_id tagged_listing sample_world
      = (Return r, w)
      ∧ ListingOut.title r = "Flow"
      ∧ get_listing no_text Regex.engine (ListingOut.id r) w
        = (Return r, logged (Read "listing") w).
Proof.
  split; [|split; [|split]].
  - apply (proj1 (get_listing_outcomes no_text Regex.engine "not-an-id" sample_world)).
    vm_compute; reflexivity.
  - apply (proj1 (proj2 (get_listing_outcomes no_text Regex.engine
                           "000000000000000000000002" sample_world))
             other_id).
    + vm_compute; reflexivity.
    + vm_compute; reflexivity.
  - rewrite (proj1 (proj2 (proj2 (get_listing_outcomes no_text Regex.engine
                                    "000000000000000000000001"
                                    sample_world))) sample_id sample_doc).
    + vm_compute; reflexivity.
    + vm_compute; reflexivity.
    + vm_compute; reflexivity.
  - pose proof (create_listing_fresh no_text Regex.engine other_id tagged_listing
                  sample_world eq_refl eq_refl eq_refl ltac:(vm_compute; reflexivity))
      as Hcreate.
    eexists _, _. split; [exact Hcreate|]. split; [reflexivity|].
    apply (proj2 (proj2 (proj2 (get_listing_outcomes no_text Regex.engine _ _)))
             other_id tagged_listing sample_world _).
    + reflexivity.
    + vm_compute; reflexivity.
    + exact Hcreate.
    + reflexivity.
Defined.

Lemma limit_respected_witness :
  (∀ (rs : list ListingOut.t) (w' : world),
     list_listings no_text Regex.engine insertion_order None None None (Some 1%Z) two_world
     = (Return rs, w') →
     (Z.of_nat (length rs) ≤ 1)%Z)
  ∧ list_listings no_text Regex.engine insertion_order None None None (Some 0%Z) two_world
    = (Raise RequestValidationError, two_world)
  ∧ list_orders no_text Regex.engine insertion_order None (Some 101%Z) two_world
    = (Raise RequestValidationError, two_world).
Proof.
  pose proof (limit_respected no_text Regex.engine insertion_order
                None None None None (Some 1%Z) two_world) as H1.
  pose proof (limit_respected no_text Regex.engine insertion_order
                None None None None (Some 0%Z) two_world) as H0.
  pose proof (limit_respected no_text Regex.engine insertion_order
                None None None None (Some 101%Z) two_world) as H101.
  split; [exact (proj1 H1)|]. split.
  - apply (proj2 (proj2 (proj2 (proj2 H0))) 0%Z); [reflexivity|lia].
  - apply (proj2 (proj2 (proj2 (proj2 H101))) 101%Z); [reflexivity|lia].
Defined.

Lemma listing_price_nonnegative_witness :
  Listing_validate any_text any_text negative_body = Raise RequestValidationError
  ∧ POST_api_listings no_text any_text any_text Regex.engine other_id negative_body
      sample_world
    = (Raise RequestValidationError, sample_world)
  ∧ (∀ l : Listing.t,
       Listing_validate any_text any_text sample_body = Return l →
       SFleb zero (Listing.price l) = true)
  ∧ (∀ (r : outcome ListingOut.t) (w' : world),
       POST_api_listings no_text any_text any_text Regex.engine other_id sample_body
         sample_world = (r, w') →
       Forall price_ok (coll w' "listing")).
Proof.
  pose proof (listing_price_nonnegative no_text any_text any_text Regex.engine other_id
                negative_body sample_world) as (_ & Hneg & _).
  pose proof (listing_price_nonnegative no_text any_text any_text Regex.engine other_id
                sample_body sample_world) as (Hok & _ & Hinv).
  destruct (Hneg (S754_finite true 1 0) eq_refl eq_refl) as [H1 H2].
  split; [exact H1|]. split; [exact H2|]. split; [exact Hok|].
  intros r w'. apply Hinv.
  constructor; [|constructor].
  exists (S754_finite false 19 (-1)). split; reflexivity.
Defined.


Lemma list_listings_tag_exact_witness :
  "ops" ≠ ""
  ∧ list_listings no_text Regex.engine insertion_order None None (Some "ops") None two_world
    = (Return [ListingOut_of "000000000000000000000002" tagged_listing],
       logged (Read "listing") two_world)
  ∧ In "ops" (ListingOut.tags (ListingOut_of "000000000000000000000002" tagged_listing)).
Proof.
  assert (Hcall :
    list_listings no_text Regex.engine insertion_order None None (Some "ops") None two_world
    = (Return [ListingOut_of "000000000000000000000002" tagged_listing],
       logged (Read "listing") two_world)) by (vm_compute; reflexivity).
  split; [discriminate|]. split; [exact Hcall|].
  apply (list_listings_tag_exact no_text Regex.engine insertion_order
           "ops" None None None two_world _ _ _
           ltac:(discriminate) Hcall (or_introl eq_refl)).
Defined.


(** C5, as stated, fails: with [tag] the empty text no filter is set, the
    sample listing is returned, and its list of tags is empty. *)
Lemma list_listings_empty_tag_not_member :
  ¬ (∀ (str_other : value → string) (regex : string → bool → option (string → bool))
       (order : cursor_order) (X : string) (q type : option string)
       (limit : option Z) (w w' : world) (rs : list ListingOut.t) (r : ListingOut.t),
       list_listings str_other regex order q type (Some X) limit w = (Return rs, w') →
       In r rs →
       In X (ListingOut.tags r)).
Proof.
  intros Hclaim.
  assert (Hcall :
    list_listings no_text Regex.engine insertion_order None None (Some "") None
      sample_world
    = (Return [ListingOut_of "000000000000000000000001" sample_listing],
       logged (Read "listing") sample_world)) by (vm_compute; reflexivity).
  exact (Hclaim no_text Regex.engine insertion_order "" None None None sample_world
           _ _ _ Hcall (or_introl eq_refl)).
Qed.

(** ** The further theorems at work on the sample data *)

Lemma create_order_stores_witness :
  ∃ (r : OrderOut.t) (w' : world),
    create_order no_text Regex.engine third_id good_order order_world = (Return r, w')
    ∧ OrderOut.id r = "000000000000000000000003"
    ∧ OrderOut.listing_id r = "000000000000000000000001"
    ∧ OrderOut.status r = "completed"
    ∧ coll w' "order"
      = [order_doc (other_id, sample_id, other_order);
         order_doc (third_id, sample_id, good_order)].
Proof.
  destruct (create_order_stores no_text Regex.engine third_id sample_id good_order
              order_world)
    as (r & w' & Hcall & Hid & Hlid & _ & _ & Hstatus & Hcoll & _).
  - reflexivity.
  - vm_compute; reflexivity.
  - vm_compute; reflexivity.
  - vm_compute; reflexivity.
  - exists r, w'. split; [exact Hcall|]. split; [exact Hid|].
    split; [exact Hlid|]. split; [exact Hstatus|]. exact Hcoll.
Defined.

Lemma reads_do_not_write_witness :
  collections (snd (get_listing no_text Regex.engine "000000000000000000000001"
                      sample_world))
  = collections sample_world.
Proof.
  exact (proj1 (proj1 (reads_do_not_write no_text Regex.engine insertion_order
                         sample_world) _ _ _
                  (surjective_pairing _))).
Defined.

Lemma create_listing_appends_witness :
  coll (snd (create_listing no_text Regex.engine other_id tagged_listing sample_world))
    "order"
  = coll sample_world "order"
  ∧ coll (snd (create_listing no_text Regex.engine other_id tagged_listing sample_world))
      "listing"
    = [sample_doc; listing_doc (other_id, tagged_listing)].
Proof.
  destruct (create_listing_appends no_text Regex.engine other_id tagged_listing
              sample_world _ _ (surjective_pairing _)) as [Hother Hown].
  split; [apply Hother; discriminate|].
  destruct Hown as [Hsame|Hmore]; [|exact Hmore].
  apply (f_equal (@length dict)) in Hsame. vm_compute in Hsame. discriminate.
Defined.

Lemma create_order_appends_witness :
  coll (snd (create_order no_text Regex.engine third_id good_order order_world)) "listing"
  = coll order_world "listing".
Proof.
  apply (proj1 (create_order_appends no_text Regex.engine third_id good_order
                  order_world _ _ (surjective_pairing _))).
  discriminate.
Defined.

Lemma serialize_doc_idempotent_witness :
  ∃ d : dict,
    serialize_doc no_text (Some (order_doc (other_id, sample_id, other_order))) = Some d
    ∧ d !! "_id" = None
    ∧ serialize_doc no_text (Some d) = Some d.
Proof.
  destruct (serialize_doc_other no_text (order_doc (other_id, sample_id, other_order)))
    as (d & Hd & _).
  exists d. split; [exact Hd|].
  destruct (serialize_doc_idempotent no_text _ d Hd) as (Hno & _ & Hagain).
  split; [exact Hno|exact Hagain].
Defined.

Lemma list_listings_exact_witness :
  list_listings no_text Regex.engine insertion_order
    (Some "FLO") None (Some "ai") (Some 5%Z) two_world
  = (Return [listing_out (other_id, tagged_listing)],
     logged (Read "listing") two_world).
Proof.
  destruct (list_listings_exact no_text Regex.engine insertion_order
              (Some "FLO") None (Some "ai") (Some 5%Z)
              [(sample_id, sample_listing); (other_id, tagged_listing)] two_world)
    as (arranged & Hperm & Hcall).
  - cbn; lia.
  - intros x [= <-]. discriminate.
  - reflexivity.
  - apply Permutation_sym, Permutation_length_1_inv in Hperm.
    rewrite Hcall, Hperm. reflexivity.
Defined.

Lemma list_orders_exact_witness :
  list_orders no_text Regex.engine insertion_order (Some "d@x.com") None order_world
  = (Return [order_out (other_id, sample_id, other_order)],
     logged (Read "order") order_world).
Proof.
  destruct (list_orders_exact no_text Regex.engine insertion_order (Some "d@x.com") None
              [(other_id, sample_id, other_order)] order_world)
    as (arranged & Hperm & Hcall).
  - exact I.
  - reflexivity.
  - apply Permutation_sym, Permutation_length_1_inv in Hperm.
    rewrite Hcall, Hperm. reflexivity.
Defined.

Lemma created_listing_is_listed_witness :
  ∃ (w1 : world) (rs : list ListingOut.t),
    create_listing no_text Regex.engine other_id tagged_listing sample_world
    = (Return (listing_out (other_id, tagged_listing)), w1)
    ∧ fst (list_listings no_text Regex.engine insertion_order
             None (Some "workflow") None None w1)
      = Return rs
    ∧ In (listing_out (other_id, tagged_listing)) rs
    ∧ Permutation rs [listing_out (other_id, tagged_listing)].
Proof.
  destruct (created_listing_is_listed no_text Regex.engine insertion_order
              other_id tagged_listing None (Some "workflow") None None
              [(sample_id, sample_listing)] sample_world)
    as (w1 & rs & Hcreate & Hlist & Hin & Hperm).
  - reflexivity.
  - reflexivity.
  - reflexivity.
  - vm_compute; reflexivity.
  - reflexivity.
  - exact I.
  - intros x [=].
  - reflexivity.
  - vm_compute; lia.
  - exists w1, rs. split; [exact Hcreate|]. split; [exact Hlist|].
    split; [exact Hin|exact Hperm].
Defined.

Lemma created_order_is_listed_witness :
  ∃ (w1 : world) (rs : list OrderOut.t),
    create_order no_text Regex.engine third_id good_order order_world
    = (Return (order_out (third_id, sample_id, good_order)), w1)
    ∧ fst (list_orders no_text Regex.engine insertion_order (Some "c@x.com") None w1)
      = Return rs
    ∧ In (order_out (third_id, sample_id, good_order)) rs
    ∧ Permutation rs [order_out (third_id, sample_id, good_order)].
Proof.
  destruct (created_order_is_listed no_text Regex.engine insertion_order
              third_id sample_id good_order
              (Some "c@x.com") None [(other_id, sample_id, other_order)] order_world)
    as (w1 & rs & Hcreate & Hlist & Hin & Hperm).
  - reflexivity.
  - vm_compute; reflexivity.
  - vm_compute; reflexivity.
  - vm_compute; reflexivity.
  - reflexivity.
  - exact I.
  - reflexivity.
  - vm_compute; lia.
  - exists w1, rs. split; [exact Hcreate|]. split; [exact Hlist|].
    split; [exact Hin|exact Hperm].
Defined.

Lemma list_orders_buyer_exact_witness :
  "d@x.com" ≠ ""
  ∧ OrderOut.buyer_email (order_out (other_id, sample_id, other_order)) = "d@x.com".
Proof.
  split; [discriminate|].
  assert (Hcall :
    list_orders no_text Regex.engine insertion_order (Some "d@x.com") None order_world
    = (Return [order_out (other_id, sample_id, other_order)],
       logged (Read "order") order_world)) by (vm_compute; reflexivity).
  apply (list_orders_buyer_exact no_text Regex.engine insertion_order
           "d@x.com" None order_world _ _ _
           ltac:(discriminate) Hcall (or_introl eq_refl)).
Defined.

Lemma order_route_default_status_witness :
  ∃ (r : OrderOut.t) (w' : world),
    POST_api_orders no_text any_text Regex.engine third_id good_order_body order_world
    = (Return r, w')
    ∧ OrderOut.status r = "completed".
Proof.
  destruct (order_route_default_status no_text any_text Regex.engine third_id sample_id
              good_order_body "000000000000000000000001" "C" "c@x.com" "c@x.com"
              order_world)
    as (r & w' & Hcall & Hstatus & _); try (vm_compute; reflexivity).
  exists r, w'. split; [exact Hcall|exact Hstatus].
Defined.

Lemma listing_route_defaults_witness :
  ∃ w' : world,
    POST_api_listings no_text any_text any_text Regex.engine other_id sample_body
      sample_world
    = (Return (listing_out (other_id, sample_listing)), w').
Proof.
  destruct (listing_route_defaults no_text any_text any_text Regex.engine other_id
              sample_body
              "Bot" "chatbot" "d" "A" "a@x.com" "a@x.com"
              (S754_finite false 19 (-1)) sample_world)
    as (w' & Hcall); try (vm_compute; reflexivity).
  exists w'. exact Hcall.
Defined.

Lemma test_database_report_witness :
  test_database (Some working_db) None !! "connection_status" = Some (VStr "Connected")
  ∧ test_database (Some working_db) None !! "collections"
    = Some (VList [VStr "listing"; VStr "order"]).
Proof.
  destruct (test_database_report (Some working_db) None) as (_ & _ & Hiff & Hnames).
  split.
  - apply Hiff. exists working_db, ["listing"; "order"]. split; reflexivity.
  - exact (proj1 (Hnames working_db ["listing"; "order"] eq_refl eq_refl)).
Defined.

(** The text of the exception has 100 characters of two bytes each; the
    response shows 80 of them, which are 160 bytes. *)
Lemma test_database_error_witness :
  test_database (Some failing_db) (Some "mongodb://h") !! "database"
  = Some (VStr ("❌ Error: " ++ utf8 (repeat 233%N 80)))
  ∧ String.length (utf8 (repeat 233%N 80)) = 160%nat
  ∧ test_database (Some failing_db) (Some "mongodb://h") !! "database_name"
    = Some (VStr "market").
Proof.
  destruct (test_database_error failing_db (Some "mongodb://h") (repeat 233%N 100)
              eq_refl)
    as (shown & Hdb & Hshown & _ & _ & Hname & _).
  rewrite Hshown in Hdb.
  split; [exact Hdb|]. split; [vm_compute; reflexivity|exact Hname].
Defined.

Lemma get_listing_finds_stored_witness :
  get_listing no_text Regex.engine "000000000000000000000002" two_world
  = (Return (ListingOut_of "000000000000000000000002" tagged_listing),
     logged (Read "listing") two_world).
Proof.
  apply (get_listing_finds_stored no_text Regex.engine "000000000000000000000002" other_id
           tagged_listing [(sample_id, sample_listing)] [] two_world).
  - vm_compute; reflexivity.
  - reflexivity.
  - constructor; [discriminate|constructor].
Defined.

Lemma order_route_malformed_id_witness :
  POST_api_orders no_text any_text Regex.engine third_id bad_order_body order_world
  = (Raise (HTTPException 400 "Invalid listing id"), order_world).
Proof.
  apply (order_route_malformed_id no_text any_text Regex.engine third_id bad_order_body
           "not-an-id" "C" "c@x.com" "c@x.com" order_world);
    try reflexivity.
Defined.
